(** * speak-to-docs: the ingestion functions of [src/rag_functions.py]

    A shallow embedding of [allowed_files], [file_check_num],
    [chunk_document], [extract_contents_from_doc],
    [conversation_history_prompt] and [get_conversation_summary], and the
    properties the specification states about them.

    Conventions of the embedding.
    - A Python [str] is a list of Unicode code points ([char := N]); a
      Python [bytes] is a [list byte].
    - A Python call that may raise returns a [result]: [Return v] or
      [Raise e].  Every exception of the model is a subclass of
      [Exception], so [except Exception] catches all of them.
    - Third-party libraries (werkzeug, PyPDF2, python-pptx, the Azure
      client) and the operating system are the fields of a record
      [Libs], over which the functions are parameterised; the Python
      built-ins and [os.path] (POSIX flavour) are written out, and so is
      the algorithm of langchain's text splitter, which [chunk_document]
      only configures. *)

From Stdlib Require Import ZArith NArith List Lia Bool.
From Stdlib.Strings Require Import String Ascii Byte.
From stdpp Require Import base option list gmap.

Local Open Scope list_scope.

(** ** Exceptions and fallible computations *)

Inductive exn : Type :=
  | IndexError
  | ValueError
  | UnicodeDecodeError
  | UnicodeEncodeError
  | OSError
  | LibraryError (code : N).   (* raised inside a third-party library *)

Inductive result (A : Type) : Type :=
  | Return (v : A)
  | Raise (e : exn).
Arguments Return {A} v.
Arguments Raise {A} e.

Definition bind {A B} (r : result A) (k : A -> result B) : result B :=
  match r with
  | Return v => k v
  | Raise e => Raise e
  end.

Notation "'let!' x ':=' e 'in' k" := (bind e (fun x => k))
  (at level 10, x name, e at level 100, k at level 200).

(** ** Python strings *)

Abbreviation char := N.
Abbreviation str := (list N).
Abbreviation bytes := (list byte).

(** An ASCII literal as a [str]. *)
Definition lit (s : string) : str :=
  List.map N_of_ascii (list_ascii_of_string s).

Definition LF : char := 10%N.
Definition CR : char := 13%N.
Definition DOT : char := 46%N.
Definition SLASH : char := 47%N.

Definition str_eqb (a b : str) : bool := bool_decide (a = b).

(** [c in s] for a one-character needle. *)
Definition contains_char (c : char) (s : str) : bool :=
  existsb (N.eqb c) s.

(** [x in l] for a list of strings. *)
Definition in_list (x : str) (l : list str) : bool :=
  existsb (str_eqb x) l.

(** [s.rfind(c)]: index of the last occurrence of [c]. *)
Fixpoint rfind (c : char) (s : str) : option nat :=
  match s with
  | [] => None
  | x :: r =>
      match rfind c r with
      | Some i => Some (S i)
      | None => if N.eqb x c then Some 0 else None
      end
  end.

(** [s.rsplit(c, 1)]: at most one split, at the last occurrence. *)
Definition rsplit1 (c : char) (s : str) : list str :=
  match rfind c s with
  | Some i => [take i s; drop (S i) s]
  | None => [s]
  end.

(** [l[i]] *)
Definition index {A} (l : list A) (i : nat) : result A :=
  match l !! i with
  | Some v => Return v
  | None => Raise IndexError
  end.

(** [str.isascii] *)
Definition is_ascii (s : str) : bool := forallb (fun c => (c <? 128)%N) s.

(** [str.lower].  The code points [A]..[Z] are mapped to [a]..[z]; the
    case mapping of the code points above U+007F is left out.  So [lower]
    is [str.lower] on ASCII text ([is_ascii]).  On any other text it still
    agrees with [str.lower] on whether the result is a given word over the
    letters d, f, p, t, x and the dot, since no code point above U+007F
    lowercases to a string containing one of these: that is all the tests
    of [allowed_files], of [file_check_num] and of the extraction loop ask.
    The lowercased text itself is seen in one place, the record
    [file_check_num] logs for an unsupported extension; what is proved of
    that record is proved of ASCII names. *)
Definition lower_char (c : char) : char :=
  if (65 <=? c)%N && (c <=? 90)%N then (c + 32)%N else c.

Definition lower (s : str) : str := List.map lower_char s.

(** ** [allowed_files] *)

Definition allowed_files_list : list str := [lit "pdf"; lit "txt"; lit "pptx"].

(** [return "." in filename and filename.rsplit(".", 1)[1].lower() in allowed_files_list] *)
Definition allowed_files (filename : str) : result bool :=
  if contains_char DOT filename then
    let! ext := index (rsplit1 DOT filename) 1 in
    Return (in_list (lower ext) allowed_files_list)
  else Return false.

(** ** More built-ins: code-point classes, [splitlines], [strip], UTF-8 *)

Definition in_range (lo hi n : N) : bool := (lo <=? n)%N && (n <=? hi)%N.

(** Line boundaries of [str.splitlines]. *)
Definition is_linebreak (c : char) : bool :=
  in_range 10 13 c || in_range 28 30 c || N.eqb c 133 ||
  N.eqb c 8232 || N.eqb c 8233.

(** White space of [str.strip()] and [str.isspace]. *)
Definition is_space (c : char) : bool :=
  in_range 9 13 c || in_range 28 32 c || N.eqb c 133 || N.eqb c 160 ||
  N.eqb c 5760 || in_range 8192 8202 c || N.eqb c 8232 || N.eqb c 8233 ||
  N.eqb c 8239 || N.eqb c 8287 || N.eqb c 12288.

(** [str.splitlines()]: [cur] is the line being scanned.  A line break
    closes the current line (["\r\n"] counts as one break); what follows
    the last break is a line only when it is not empty. *)
Fixpoint splitlines_from (cur : str) (s : str) : list str :=
  match s with
  | [] => match cur with [] => [] | _ => [cur] end
  | c :: rest =>
      if is_linebreak c then
        match rest with
        | c' :: rest' =>
            if N.eqb c CR && N.eqb c' LF
            then cur :: splitlines_from [] rest'
            else cur :: splitlines_from [] rest
        | [] => cur :: splitlines_from [] rest
        end
      else splitlines_from (cur ++ [c]) rest
  end.

Definition splitlines (s : str) : list str := splitlines_from [] s.

Fixpoint drop_while (p : char -> bool) (s : str) : str :=
  match s with
  | [] => []
  | c :: r => if p c then drop_while p r else s
  end.

(** [str.strip()] *)
Definition lstrip (s : str) : str := drop_while is_space s.
Definition rstrip (s : str) : str := rev (drop_while is_space (rev s)).
Definition strip (s : str) : str := rstrip (lstrip s).

(** [bytes.decode("utf-8")], strict: shortest forms only, no surrogates,
    nothing above U+10FFFF. *)
Fixpoint utf8_decode_opt (bs : bytes) : option str :=
  match bs with
  | [] => Some []
  | b0 :: r0 =>
      let n0 := Byte.to_N b0 in
      if (n0 <? 128)%N then cons n0 <$> utf8_decode_opt r0
      else if in_range 194 223 n0 then
        match r0 with
        | b1 :: r1 =>
            let n1 := Byte.to_N b1 in
            if in_range 128 191 n1
            then cons ((n0 - 192) * 64 + (n1 - 128))%N <$> utf8_decode_opt r1
            else None
        | _ => None
        end
      else if in_range 224 239 n0 then
        match r0 with
        | b1 :: b2 :: r2 =>
            let n1 := Byte.to_N b1 in
            let n2 := Byte.to_N b2 in
            if in_range (if N.eqb n0 224 then 160 else 128)
                        (if N.eqb n0 237 then 159 else 191) n1
               && in_range 128 191 n2
            then cons ((n0 - 224) * 4096 + (n1 - 128) * 64 + (n2 - 128))%N
                   <$> utf8_decode_opt r2
            else None
        | _ => None
        end
      else if in_range 240 244 n0 then
        match r0 with
        | b1 :: b2 :: b3 :: r3 =>
            let n1 := Byte.to_N b1 in
            let n2 := Byte.to_N b2 in
            let n3 := Byte.to_N b3 in
            if in_range (if N.eqb n0 240 then 144 else 128)
                        (if N.eqb n0 244 then 143 else 191) n1
               && in_range 128 191 n2 && in_range 128 191 n3
            then cons ((n0 - 240) * 262144 + (n1 - 128) * 4096
                       + (n2 - 128) * 64 + (n3 - 128))%N
                   <$> utf8_decode_opt r3
            else None
        | _ => None
        end
      else None
  end.

Definition utf8_decode (bs : bytes) : result str :=
  match utf8_decode_opt bs with
  | Some s => Return s
  | None => Raise UnicodeDecodeError
  end.

Definition byte_of_N (n : N) : byte :=
  match Byte.of_N n with Some b => b | None => x00 end.

(** The UTF-8 encoding of one code point; [None] for a surrogate (and for
    a number that is no code point). *)
Definition utf8_encode_char (c : char) : option bytes :=
  if (c <? 128)%N then Some [byte_of_N c]
  else if (c <? 2048)%N then
    Some [byte_of_N (192 + c / 64); byte_of_N (128 + c mod 64)]
  else if (c <? 65536)%N then
    if in_range 55296 57343 c then None
    else Some [byte_of_N (224 + c / 4096); byte_of_N (128 + (c / 64) mod 64);
               byte_of_N (128 + c mod 64)]
  else if (c <? 1114112)%N then
    Some [byte_of_N (240 + c / 262144); byte_of_N (128 + (c / 4096) mod 64);
          byte_of_N (128 + (c / 64) mod 64); byte_of_N (128 + c mod 64)]
  else None.

Fixpoint utf8_encode_opt (s : str) : option bytes :=
  match s with
  | [] => Some []
  | c :: r =>
      match utf8_encode_char c, utf8_encode_opt r with
      | Some bc, Some br => Some (bc ++ br)
      | _, _ => None
      end
  end.

Definition utf8_encode (s : str) : result bytes :=
  match utf8_encode_opt s with
  | Some bs => Return bs
  | None => Raise UnicodeEncodeError
  end.

(** ** [os.path] (posixpath) *)

Definition rfindZ (c : char) (s : str) : Z :=
  match rfind c s with
  | Some i => Z.of_nat i
  | None => (-1)%Z
  end.

(** [s[a:b]] for [0 <= a]. *)
Definition slice (s : str) (a b : Z) : str :=
  take (Z.to_nat (b - a)) (drop (Z.to_nat a) s).

(** [os.path.splitext]: the extension starts at the last dot of the last
    path component, unless that component has only dots before it. *)
Definition splitext (p : str) : str * str :=
  let sepIndex := rfindZ SLASH p in
  let dotIndex := rfindZ DOT p in
  if (sepIndex <? dotIndex)%Z then
    (* while filenameIndex < dotIndex: a character other than the dot
       between the separator and the last dot makes the split *)
    if existsb (fun c => negb (N.eqb c DOT)) (slice p (sepIndex + 1) dotIndex)
    then (take (Z.to_nat dotIndex) p, drop (Z.to_nat dotIndex) p)
    else (p, [])
  else (p, []).

(** [os.path.join(a, b)] *)
Definition startswith_sep (b : str) : bool :=
  match b with
  | c :: _ => N.eqb c SLASH
  | [] => false
  end.

Definition endswith_sep (a : str) : bool :=
  match last a with
  | Some c => N.eqb c SLASH
  | None => false
  end.

Definition path_join (a b : str) : str :=
  if startswith_sep b then b
  else if str_eqb a [] || endswith_sep a then a ++ b
  else a ++ [SLASH] ++ b.

(** ** The world: uploaded files, file system, environment, log *)

(** A seekable byte stream with the behaviour of [io.BytesIO]. *)
Record stream : Type := mkStream {
  data : bytes;
  pos : nat;
  closed : bool
}.

Record UploadedFile : Type := mkUploadedFile {
  name : str;
  body : stream
}.

Definition BytesIO (bs : bytes) : stream :=
  {| data := bs; pos := 0; closed := false |}.

Inductive log_record : Type :=
  | ErrUnsupportedExtension (file_ext : str)
  | ErrCheckingFile (file_name : str) (e : exn)
  | ErrCredentialsMissing
  | InfoTempDirReady (temp_dir : str)
  | InfoProcessingPDF (file_name : str)
  | InfoProcessingTXT (file_name : str)
  | InfoProcessingPPTX (file_name : str)
  | WarnUnsupportedType (file_name : str)
  | InfoSaved (file_path : str)
  | ErrProcessingFile (file_name : str) (e : exn).

(** File objects live in a store and are named by their address, so that
    a batch may hold the same object more than once. *)
Record world : Type := mkWorld {
  objs : nat -> UploadedFile;
  fs : gmap str bytes;          (* regular files: path to content *)
  environ : gmap str str;       (* os.environ *)
  svc_calls : nat;              (* requests sent to the remote service *)
  log : list log_record
}.

Definition set_obj (w : world) (h : nat) (f : UploadedFile) : world :=
  {| objs := fun h' => if Nat.eqb h' h then f else objs w h';
     fs := fs w; environ := environ w; svc_calls := svc_calls w; log := log w |}.

Definition set_fs (w : world) (m : gmap str bytes) : world :=
  {| objs := objs w; fs := m; environ := environ w;
     svc_calls := svc_calls w; log := log w |}.

Definition add_log (w : world) (r : log_record) : world :=
  {| objs := objs w; fs := fs w; environ := environ w;
     svc_calls := svc_calls w; log := log w ++ [r] |}.

Definition tick_svc (w : world) : world :=
  {| objs := objs w; fs := fs w; environ := environ w;
     svc_calls := S (svc_calls w); log := log w |}.

(** ** A state and exception monad over the world *)

Definition M (A : Type) : Type := world -> result A * world.

Definition ret {A} (v : A) : M A := fun w => (Return v, w).
Definition raise {A} (e : exn) : M A := fun w => (Raise e, w).
Definition lift {A} (r : result A) : M A := fun w => (r, w).

Definition bindM {A B} (m : M A) (k : A -> M B) : M B :=
  fun w =>
    match m w with
    | (Return v, w') => k v w'
    | (Raise e, w') => (Raise e, w')
    end.

(** [try: m except Exception as e: handler e] *)
Definition try_except {A} (m : M A) (handler : exn -> M A) : M A :=
  fun w =>
    match m w with
    | (Return v, w') => (Return v, w')
    | (Raise e, w') => handler e w'
    end.

Notation "x <- m ;; k" := (bindM m (fun x => k))
  (at level 100, m at next level, right associativity).
Notation "m ;;; k" := (bindM m (fun _ => k))
  (at level 100, right associativity).

Definition logger (r : log_record) : M unit :=
  fun w => (Return tt, add_log w r).

Definition file_name (h : nat) : M str :=
  fun w => (Return (name (objs w h)), w).

(** [file.read()]: everything from the position to the end. *)
Definition read (h : nat) : M bytes :=
  fun w =>
    let f := objs w h in
    let s := body f in
    if closed s then (Raise ValueError, w)
    else (Return (drop (pos s) (data s)),
          set_obj w h {| name := name f;
                         body := {| data := data s;
                                    pos := Nat.max (pos s) (length (data s));
                                    closed := false |} |}).

(** [file.seek(0)] *)
Definition seek0 (h : nat) : M unit :=
  fun w =>
    let f := objs w h in
    let s := body f in
    if closed s then (Raise ValueError, w)
    else (Return tt,
          set_obj w h {| name := name f;
                         body := {| data := data s; pos := 0; closed := false |} |}).

(** [os.getenv(k)] *)
Definition getenv (k : str) : M (option str) :=
  fun w => (Return (environ w !! k), w).

(** Python's [not v] for [v : Optional[str]]. *)
Definition falsy (v : option str) : bool :=
  match v with
  | None => true
  | Some [] => true
  | Some (_ :: _) => false
  end.

(** ** The third-party libraries and the operating system *)

Record shape : Type := mkShape {
  shape_text : option str     (* [None]: no [text] attribute *)
}.
Definition slide : Type := list shape.      (* slide.shapes *)
Definition page : Type := list str.         (* page.lines, each line's content *)

Record Libs : Type := mkLibs {
  (* werkzeug.utils.secure_filename *)
  secure_filename : str -> str;
  (* PyPDF2.PdfReader on an in-memory stream, and len(reader.pages) *)
  pdf_reader : Type;
  PdfReader : bytes -> result pdf_reader;
  pdf_num_pages : pdf_reader -> result nat;
  (* pptx.Presentation on a file-like object: its slides, and the stream
     as the parser leaves it *)
  Presentation : stream -> result (list slide) * stream;
  (* azure.ai.formrecognizer *)
  client : Type;
  DocumentAnalysisClient : str -> str -> result client;
  (* begin_analyze_document("prebuilt-read", content).result().pages;
     the first argument numbers the request *)
  analyze_read : client -> nat -> bytes -> result (list page);
  (* os.makedirs(d, exist_ok=True) and open(p, "w"): the error, if any *)
  makedirs_error : gmap str bytes -> str -> option exn;
  open_w_error : gmap str bytes -> str -> option exn
}.

(** ** [file_check_num] and [extract_contents_from_doc] *)

(** [name.rsplit(".", 1)[1].lower()] *)
Definition extension_of (fname : str) : result str :=
  let! e := index (rsplit1 DOT fname) 1 in
  Return (lower e).

Definition len {A} (l : list A) : Z := Z.of_nat (length l).

(** ** What one iteration of the extraction loop amounts to *)

Inductive outcome : Type :=
  | Written (file_path : str)     (* artifact written, path appended *)
  | Skipped                       (* unsupported type *)
  | Failed (e : exn).             (* an exception was caught *)

Definition written_paths (os : list outcome) : list str :=
  flat_map (fun o => match o with Written p => [p] | _ => [] end) os.




Definition supported_ext (ext : str) : bool :=
  in_list ext [lit ".pdf"; lit ".txt"; lit ".pptx"].

Definition ENDPOINT_VAR : str := lit "DOCUMENT_INTELLIGENCE_ENDPOINT".
Definition KEY_VAR : str := lit "DOCUMENT_INTELLIGENCE_SUBSCRIPTION_KEY".

(** The bytes of a text of ASCII characters. *)
Definition ascii_bytes (s : str) : bytes := List.map byte_of_N s.

(** ["line1\nline2\nline3"] *)
Definition three_lines : str :=
  lit "line1" ++ [LF] ++ lit "line2" ++ [LF] ++ lit "line3".

(** A deck of two slides, with one text shape each. *)
Definition deck_A_B : list slide :=
  [[ {| shape_text := Some (lit "A") |} ]; [ {| shape_text := Some (lit "B") |} ]].

(** The file object [f] with its stream at offset 0. *)
Definition rewound (f : UploadedFile) : UploadedFile :=
  {| name := name f;
     body := {| data := data (body f); pos := 0; closed := false |} |}.

(** The file object [f] after [read()]. *)
Definition consumed (f : UploadedFile) : UploadedFile :=
  {| name := name f;
     body := {| data := data (body f);
                pos := Nat.max (pos (body f)) (length (data (body f)));
                closed := false |} |}.

Section Pipeline.

Variable lib : Libs.

(** [uploaded_file] is the address of the file object. *)
Definition file_check_num (uploaded_file : nat) : M Z :=
  fname <- file_name uploaded_file ;;
  (* outside the try block *)
  file_ext <- lift (extension_of fname) ;;
  try_except
    (if str_eqb file_ext (lit "pdf") then
       content <- read uploaded_file ;;
       pdf <- lift (PdfReader lib content) ;;
       seek0 uploaded_file ;;;
       n <- lift (pdf_num_pages lib pdf) ;;
       ret (Z.of_nat n)
     else if str_eqb file_ext (lit "pptx") then
       content <- read uploaded_file ;;
       slides <- lift (fst (Presentation lib (BytesIO content))) ;;
       seek0 uploaded_file ;;;
       ret (len slides)
     else if str_eqb file_ext (lit "txt") then
       content <- read uploaded_file ;;
       text <- lift (utf8_decode content) ;;
       let num := len (splitlines text) in
       seek0 uploaded_file ;;;
       ret num
     else
       logger (ErrUnsupportedExtension file_ext) ;;;
       ret (-1)%Z)
    (fun e =>
       logger (ErrCheckingFile fname e) ;;;
       ret (-1)%Z).

(** The PDF branch: every line of every page, each followed by a newline. *)
Definition pdf_lines_text (pages : list page) : str :=
  fold_left
    (fun extracted_content pg =>
       fold_left (fun acc line_content => acc ++ line_content ++ [LF])
                 pg extracted_content)
    pages [].

(** The PDF text, described page by page and line by line. *)
Definition page_text (pg : page) : str :=
  concat (List.map (fun line_content => line_content ++ [LF]) pg).

Definition pages_text (pages : list page) : str :=
  concat (List.map page_text pages).

(** The PPTX branch: the loops over slides and shapes. *)
Definition pptx_shapes_text (slides : list slide) : str :=
  fold_left
    (fun extracted_content sl =>
       fold_left
         (fun acc sh =>
            match shape_text sh with
            | Some t => acc ++ t ++ [LF]     (* hasattr(shape, "text") *)
            | None => acc
            end)
         sl extracted_content)
    slides [].

(** The same text, described slide by slide and shape by shape. *)
Definition shape_line (sh : shape) : str :=
  match shape_text sh with
  | Some t => t ++ [LF]
  | None => []
  end.

Definition slides_text (slides : list slide) : str :=
  concat (List.map (fun sl => concat (List.map shape_line sl)) slides).

(** [Presentation(file)]: the parser works on the file object itself. *)
Definition Presentation_of (h : nat) : M (list slide) :=
  fun w =>
    let f := objs w h in
    let '(r, s') := Presentation lib (body f) in
    (r, set_obj w h {| name := name f; body := s' |}).

(** [begin_analyze_document("prebuilt-read", file_content).result()] *)
Definition analyze (c : client lib) (file_content : bytes) : M (list page) :=
  fun w => (analyze_read lib c (svc_calls w) file_content, tick_svc w).

(** [with open(file_path, "w", encoding="utf-8") as f: f.write(content)]
    Opening truncates the file; the text is encoded when it is written. *)
Definition write_text (file_path : str) (content : str) : M unit :=
  fun w =>
    match open_w_error lib (fs w) file_path with
    | Some e => (Raise e, w)
    | None =>
        let w0 := set_fs w (<[file_path := []]> (fs w)) in
        match utf8_encode content with
        | Return bs => (Return tt, set_fs w (<[file_path := bs]> (fs w)))
        | Raise e => (Raise e, w0)
        end
    end.

Definition makedirs (d : str) : M unit :=
  fun w =>
    match makedirs_error lib (fs w) d with
    | Some e => (Raise e, w)
    | None => (Return tt, w)
    end.

(** One iteration of [for file in files]; the result is the value of
    [extracted_file_paths] after the iteration. *)
Definition loop_body (c : client lib) (temp_dir : str)
    (extracted_file_paths : list str) (file : nat) : M (list str) :=
  fname <- file_name file ;;
  let filename := secure_filename lib fname in
  let '(base, ext) := splitext filename in
  let ext := lower ext in
  try_except
    (extracted <-
       (if str_eqb ext (lit ".pdf") then
          file_content <- read file ;;
          logger (InfoProcessingPDF fname) ;;;
          pages <- analyze c file_content ;;
          ret (Some (pdf_lines_text pages))
        else if str_eqb ext (lit ".txt") then
          logger (InfoProcessingTXT fname) ;;;
          file_content <- read file ;;
          text <- lift (utf8_decode file_content) ;;
          ret (Some text)
        else if str_eqb ext (lit ".pptx") then
          logger (InfoProcessingPPTX fname) ;;;
          slides <- Presentation_of file ;;
          ret (Some (pptx_shapes_text slides))
        else
          logger (WarnUnsupportedType fname) ;;;
          ret None) ;;
     match extracted with
     | None => ret extracted_file_paths          (* continue *)
     | Some extracted_content =>
         let extracted_filename := base ++ lit "_extracted.txt" in
         let file_path := path_join temp_dir extracted_filename in
         write_text file_path extracted_content ;;;
         logger (InfoSaved file_path) ;;;
         ret (extracted_file_paths ++ [file_path])
     end)
    (fun e =>
       logger (ErrProcessingFile fname e) ;;;
       ret extracted_file_paths).               (* continue *)

Fixpoint for_files (c : client lib) (temp_dir : str)
    (extracted_file_paths : list str) (files : list nat) : M (list str) :=
  match files with
  | [] => ret extracted_file_paths
  | file :: rest =>
      paths <- loop_body c temp_dir extracted_file_paths file ;;
      for_files c temp_dir paths rest
  end.

Definition extract_contents_from_doc (files : list nat) (temp_dir : str)
    : M (list str) :=
  DI_ENDPOINT <- getenv (lit "DOCUMENT_INTELLIGENCE_ENDPOINT") ;;
  DOCUMENT_INTELLIGENCE_KEY <- getenv (lit "DOCUMENT_INTELLIGENCE_SUBSCRIPTION_KEY") ;;
  if falsy DI_ENDPOINT || falsy DOCUMENT_INTELLIGENCE_KEY then
    logger ErrCredentialsMissing ;;;
    ret []
  else
    document_intelligence_client <-
      lift (DocumentAnalysisClient lib (default [] DI_ENDPOINT)
                                   (default [] DOCUMENT_INTELLIGENCE_KEY)) ;;
    makedirs temp_dir ;;;
    logger (InfoTempDirReady temp_dir) ;;;
    for_files document_intelligence_client temp_dir [] files.

(** The lowercased extension of the sanitized name, as the loop sees it. *)
Definition sanitized_ext (fname : str) : str :=
  lower (snd (splitext (secure_filename lib fname))).

Definition artifact_path (temp_dir fname : str) : str :=
  path_join temp_dir
    (fst (splitext (secure_filename lib fname)) ++ lit "_extracted.txt").

(** *** The batch, file by file

    What the specification says of one file, with no list of paths and no
    exception handler: the text of the file by the kind its sanitized
    extension names, then the artifact. *)

(** Reading and parsing a file of a supported kind: the text, or the
    exception met on the way. *)
Definition extracted_text (c : client lib) (file : nat) : M str :=
  fname <- file_name file ;;
  if str_eqb (sanitized_ext fname) (lit ".pdf") then
    file_content <- read file ;;
    logger (InfoProcessingPDF fname) ;;;
    pages <- analyze c file_content ;;
    ret (pages_text pages)
  else if str_eqb (sanitized_ext fname) (lit ".txt") then
    logger (InfoProcessingTXT fname) ;;;
    file_content <- read file ;;
    lift (utf8_decode file_content)
  else
    logger (InfoProcessingPPTX fname) ;;;
    slides <- Presentation_of file ;;
    ret (slides_text slides).

(** The outcome of [file] in world [w], and the world it leaves.  A file
    of an unsupported kind is skipped with a warning.  Otherwise the text
    is obtained and written to the artifact path: when both succeed the
    artifact is written and recorded; when either raises, the file has
    failed and the exception is logged with the name of the file. *)
Definition outcome_of (c : client lib) (temp_dir : str) (file : nat) (w : world)
    : outcome * world :=
  let fname := name (objs w file) in
  let file_path := artifact_path temp_dir fname in
  if supported_ext (sanitized_ext fname) then
    match (content <- extracted_text c file ;; write_text file_path content) w with
    | (Return _, w') => (Written file_path, add_log w' (InfoSaved file_path))
    | (Raise e, w') => (Failed e, add_log w' (ErrProcessingFile fname e))
    end
  else (Skipped, add_log w (WarnUnsupportedType fname)).

(** The outcomes of a batch: every file in turn, in the order of the
    batch, each in the world its predecessor has left. *)
Fixpoint outcomes (c : client lib) (temp_dir : str) (files : list nat) (w : world)
    : list outcome * world :=
  match files with
  | [] => ([], w)
  | file :: rest =>
      let '(o, w1) := outcome_of c temp_dir file w in
      let '(os, w2) := outcomes c temp_dir rest w1 in
      (o :: os, w2)
  end.

(** Credentials are configured, the client can be built and the output
    directory can be made: the loop is reached, with client [c]. *)
Definition ready (temp_dir : str) (w : world) (c : client lib) : Prop :=
  exists endpoint key : str,
    environ w !! ENDPOINT_VAR = Some endpoint /\ endpoint <> [] /\
    environ w !! KEY_VAR = Some key /\ key <> [] /\
    DocumentAnalysisClient lib endpoint key = Return c /\
    makedirs_error lib (fs w) temp_dir = None.

End Pipeline.

(** ** [chunk_document]

    [chunk_document] only configures langchain's
    [RecursiveCharacterTextSplitter] and calls [split_text].  The splitter
    is third-party code; what follows is its algorithm
    ([TextSplitter.__init__], [_join_docs], [_merge_splits],
    [_split_text_with_regex], [_split_text]) at the arguments
    [chunk_document] passes: [length_function=len], the library defaults
    [keep_separator=True] and [strip_whitespace=True], and separators that
    are single characters, for which the regular-expression search and
    split are a search and a split on that character. *)

Module Splitter.

Record config : Type := mkConfig {
  chunk_size : Z;
  chunk_overlap : Z;
  separators : list char
}.

(** [TextSplitter.__init__]: the only check of the constructor. *)
Definition init (size overlap : Z) (seps : list char) : result config :=
  if (size <? overlap)%Z then Raise ValueError
  else Return {| chunk_size := size; chunk_overlap := overlap; separators := seps |}.

(** [separator.join(docs)] *)
Fixpoint join (separator : str) (docs : list str) : str :=
  match docs with
  | [] => []
  | [d] => d
  | d :: rest => d ++ separator ++ join separator rest
  end.

(** [_join_docs]: [None] when the stripped text is empty. *)
Definition join_docs (docs : list str) (separator : str) : option str :=
  match strip (join separator docs) with
  | [] => None
  | text => Some text
  end.

(** [re.split("(sep)", text)] regrouped as the library does with
    [keep_separator]: the text before the first separator, then every
    separator with the text that follows it. *)
Fixpoint split_keep_from (sep : char) (cur : str) (s : str) : list str :=
  match s with
  | [] => [cur]
  | c :: r =>
      if N.eqb c sep then cur :: split_keep_from sep [c] r
      else split_keep_from sep (cur ++ [c]) r
  end.

Definition nonempty (s : str) : bool :=
  match s with
  | [] => false
  | _ => true
  end.

Definition split_text_with_regex (text : str) (sep : char) : list str :=
  List.filter nonempty (split_keep_from sep [] text).

Section Merge.

Variable cfg : config.
Variable separator : str.

Definition sep_if (b : bool) : Z := if b then len separator else 0%Z.

(** The inner [while] of [_merge_splits]: drop documents from the front
    of [current_doc]; [current_doc[0]] on an empty list raises. *)
Fixpoint pop_front (_len : Z) (current_doc : list str) (total : Z)
    : result (list str * Z) :=
  if (chunk_overlap cfg <? total)%Z
     || ((chunk_size cfg <? total + _len + sep_if (0 <? len current_doc)%Z)%Z
         && (0 <? total)%Z)
  then
    match current_doc with
    | [] => Raise IndexError
    | d0 :: rest =>
        pop_front _len rest
          (total - (len d0 + sep_if (1 <? len current_doc)%Z))%Z
    end
  else Return (current_doc, total).

(** The state of the [for d in splits] loop. *)
Record merge_state : Type := mkMerge {
  docs : list str;
  current_doc : list str;
  total : Z
}.

Definition merge_step (st : merge_state) (d : str) : result merge_state :=
  let _len := len d in
  let! st1 :=
    (if (chunk_size cfg <? total st + _len + sep_if (0 <? len (current_doc st))%Z)%Z
     then
       if (0 <? len (current_doc st))%Z then
         let docs1 := match join_docs (current_doc st) separator with
                      | Some doc => docs st ++ [doc]
                      | None => docs st
                      end in
         let! popped := pop_front _len (current_doc st) (total st) in
         Return {| docs := docs1; current_doc := fst popped; total := snd popped |}
       else Return st
     else Return st) in
  let current1 := current_doc st1 ++ [d] in
  Return {| docs := docs st1;
            current_doc := current1;
            total := (total st1 + (_len + sep_if (1 <? len current1)%Z))%Z |}.

Fixpoint merge_loop (st : merge_state) (splits : list str) : result merge_state :=
  match splits with
  | [] => Return st
  | d :: rest => let! st' := merge_step st d in merge_loop st' rest
  end.

Definition merge_splits (splits : list str) : result (list str) :=
  let! st := merge_loop {| docs := []; current_doc := []; total := 0 |} splits in
  match join_docs (current_doc st) separator with
  | Some doc => Return (docs st ++ [doc])
  | None => Return (docs st)
  end.

End Merge.

(** The [for s in splits] loop of [_split_text]; [deeper] is [_split_text]
    with [new_separators], [None] when [new_separators] is empty. *)
Fixpoint split_loop (cfg : config) (deeper : option (str -> result (list str)))
    (final_chunks good_splits : list str) (splits : list str)
    : result (list str) :=
  match splits with
  | [] =>
      match good_splits with
      | [] => Return final_chunks
      | _ => let! merged := merge_splits cfg [] good_splits in
             Return (final_chunks ++ merged)
      end
  | s :: rest =>
      if (len s <? chunk_size cfg)%Z then
        split_loop cfg deeper final_chunks (good_splits ++ [s]) rest
      else
        let! final1 :=
          match good_splits with
          | [] => Return final_chunks
          | _ => let! merged := merge_splits cfg [] good_splits in
                 Return (final_chunks ++ merged)
          end in
        let! final2 :=
          match deeper with
          | None => Return (final1 ++ [s])
          | Some rec => let! other_info := rec s in Return (final1 ++ other_info)
          end in
        split_loop cfg deeper final2 [] rest
  end.

(** [_split_text(text, separators)].  The search loop takes the first
    separator that occurs in the text, with the separators after it as
    [new_separators]; when none occurs it takes the last one, with no
    [new_separators].  Here the search is a recursion on the list: a
    separator that does not occur in the text is passed over, and the
    last one is taken whether it occurs or not.  [separators[-1]] of an
    empty list raises. *)
Fixpoint split_text_rec (cfg : config) (seps : list char) (text : str)
    : result (list str) :=
  match seps with
  | [] => Raise IndexError
  | sep :: new_separators =>
      match new_separators with
      | [] =>
          split_loop cfg None [] [] (split_text_with_regex text sep)
      | _ :: _ =>
          if contains_char sep text then
            split_loop cfg (Some (split_text_rec cfg new_separators)) [] []
                       (split_text_with_regex text sep)
          else split_text_rec cfg new_separators text
      end
  end.

Definition split_text (cfg : config) (text : str) : result (list str) :=
  split_text_rec cfg (separators cfg) text.

End Splitter.

Definition QUESTION : char := 63%N.
Definition SPACE : char := 32%N.
Definition BANG : char := 33%N.

(** The defaults [chunk_size=1000], [chunk_overlap=300] are the caller's
    to pass. *)
Definition chunk_document (text : str) (chunk_size chunk_overlap : Z)
    : result (list str) :=
  let! text_splitter :=
    Splitter.init chunk_size chunk_overlap [LF; SPACE; QUESTION; DOT; BANG] in
  let chunks := Splitter.split_text text_splitter text in
  chunks.

(** What the splitter makes of a text that fits in one chunk: the text
    without its leading and trailing white space, unless nothing is left. *)
Definition stripped_chunks (text : str) : list str :=
  match strip text with
  | [] => []
  | t => [t]
  end.

(** ** A sample installation

    One instance of the libraries and one world, to run the functions on:
    the sanitizer leaves these plain names as they are, the PDF tools and
    the remote service fail, every deck parses to [deck_A_B], and the
    file system accepts every write. *)

Definition sample_lib : Libs :=
  {| secure_filename := fun s => s;
     pdf_reader := unit;
     PdfReader := fun _ => Raise (LibraryError 1);
     pdf_num_pages := fun _ => Return 0;
     Presentation := fun s => (Return deck_A_B, s);
     client := unit;
     DocumentAnalysisClient := fun _ _ => Return tt;
     analyze_read := fun _ _ _ => Raise (LibraryError 2);
     makedirs_error := fun _ _ => None;
     open_w_error := fun _ _ => None |}.

Definition upload (fname : str) (content : bytes) : UploadedFile :=
  {| name := fname; body := BytesIO content |}.

Definition sample_objs (h : nat) : UploadedFile :=
  match h with
  | 0 => upload (lit "notes.txt") (ascii_bytes three_lines)
  | 1 => upload (lit "bad.txt") [xff]
  | 2 => upload (lit "deck.pptx") [x50; x4b]
  | 3 => upload (lit "README") [x68; x69]
  | 4 => upload (lit "a.txt") (ascii_bytes (lit "a" ++ [LF]))
  | _ => upload (lit "image.png") []
  end.

Definition sample_environ : gmap str str :=
  <[ENDPOINT_VAR := lit "https://di.example"]> (<[KEY_VAR := lit "secret"]> ∅).

Definition sample_world : world :=
  {| objs := sample_objs; fs := ∅; environ := sample_environ;
     svc_calls := 0; log := [] |}.

(** The same world without the subscription key. *)
Definition unconfigured_world : world :=
  {| objs := sample_objs; fs := ∅;
     environ := <[ENDPOINT_VAR := lit "https://di.example"]> ∅;
     svc_calls := 0; log := [] |}.

Definition out_dir : str := lit "tmp".

(** ** What the extraction may change *)

(** What one iteration may change. *)
Definition touches (lib : Libs) (temp_dir : str) (file : nat) (w w' : world) : Prop :=
  environ w' = environ w /\
  (forall h, name (objs w' h) = name (objs w h)) /\
  (forall h, h <> file -> objs w' h = objs w h) /\
  (forall q, q <> artifact_path lib temp_dir (name (objs w file)) ->
             fs w' !! q = fs w !! q) /\
  (forall q, is_Some (fs w !! q) -> is_Some (fs w' !! q)) /\
  svc_calls w <= svc_calls w' /\
  svc_calls w' <= svc_calls w
                  + (if str_eqb (sanitized_ext lib (name (objs w file))) (lit ".pdf")
                     then 1 else 0) /\
  (exists more, log w' = log w ++ more).

Definition is_pdf (lib : Libs) (w : world) (h : nat) : bool :=
  str_eqb (sanitized_ext lib (name (objs w h))) (lit ".pdf").

(** What a whole batch may change. *)
Definition batch_touches (lib : Libs) (temp_dir : str) (files : list nat)
    (w w' : world) : Prop :=
  environ w' = environ w /\
  (forall h, name (objs w' h) = name (objs w h)) /\
  (forall h, ~ In h files -> objs w' h = objs w h) /\
  (forall q,
     ~ In q (List.map (fun h => artifact_path lib temp_dir (name (objs w h))) files) ->
     fs w' !! q = fs w !! q) /\
  (forall q, is_Some (fs w !! q) -> is_Some (fs w' !! q)) /\
  svc_calls w <= svc_calls w' /\
  svc_calls w' <= svc_calls w + length (List.filter (is_pdf lib w) files) /\
  (exists more, log w' = log w ++ more).

(** ** Parts of a text *)

(** [a] occurs in [b] as a contiguous part. *)
Definition infix (a b : str) : Prop := exists l r, b = l ++ a ++ r.

(** No proper, non-empty end of [m] is also a beginning of [m]. *)
Definition unbordered (m : str) : bool :=
  forallb (fun k => negb (str_eqb (take k m) (drop (length m - k) m)))
          (seq 1 (length m - 1)).

(** [seg] is a run of consecutive elements of [l]. *)
Definition segment (seg l : list str) : Prop := exists a b, l = a ++ seg ++ b.

(** A document made by merging consecutive pieces of [all]. *)
Definition merged_from (size : Z) (all : list str) (d : str) : Prop :=
  d <> [] /\ (len d <= size)%Z /\
  exists seg, segment seg all /\ d = strip (concat seg).

(** What holds of every chunk of a text: it is not empty, it is a part of
    the text, and it fits the size unless it has no separator after its
    first character. *)
Definition chunk_ok (size : Z) (seps : list char) (text : str) (c : str) : Prop :=
  c <> [] /\ infix c text /\
  ((len c <= size)%Z \/ Forall (fun x => ~ In x seps) (drop 1 c)).

(** The invariant of the merge loop over [all], with [rest] still to come. *)
Definition merging (cfg : Splitter.config) (all : list str)
    (st : Splitter.merge_state) (rest : list str) : Prop :=
  (exists pre, all = pre ++ Splitter.current_doc st ++ rest) /\
  Splitter.total st = len (concat (Splitter.current_doc st)) /\
  (Splitter.total st <= Splitter.chunk_size cfg)%Z /\
  Forall (merged_from (Splitter.chunk_size cfg) all) (Splitter.docs st).

(** The separators [chunk_document] passes. *)
Definition separators_of_chunk_document : list char := [LF; SPACE; QUESTION; DOT; BANG].

(** ** [conversation_history_prompt] and [get_conversation_summary] *)

Module Conversation.

(** The errors these two functions can meet: [KeyError] and the
    [ValueError] of the formatter, besides the exceptions above. *)
Inductive error : Type :=
  | KeyError (key : str)
  | FormatError                  (* ValueError: malformed format string *)
  | Builtin (e : exn).

Inductive reply (A : Type) : Type :=
  | Ok (v : A)
  | Err (e : error).
Arguments Ok {A} v.
Arguments Err {A} e.

Definition and_then {A B} (r : reply A) (k : A -> reply B) : reply B :=
  match r with
  | Ok v => k v
  | Err e => Err e
  end.

Notation "'try!' x ':=' e 'in' k" := (and_then e (fun x => k))
  (at level 10, x name, e at level 100, k at level 200).

Definition LBRACE : char := 123%N.
Definition RBRACE : char := 125%N.
Definition QUOTE : char := 34%N.

(** *** [str.format] on named fields *)

Inductive piece : Type :=
  | Text (s : str)
  | Field (field_name : str).

Inductive mode : Type :=
  | InText (cur : str)
  | InField (field_name : str).

(** The pieces of a format string: literal text with doubled braces
    undone, and replacement fields.  Conversions and format
    specifications inside a field are not treated. *)
Fixpoint parse_format (m : mode) (s : str) : reply (list piece) :=
  match s, m with
  | [], InText cur => Ok [Text cur]
  | [], InField _ => Err FormatError
  | c :: r, InText cur =>
      if N.eqb c LBRACE then
        match r with
        | c' :: r' =>
            if N.eqb c' LBRACE then parse_format (InText (cur ++ [LBRACE])) r'
            else try! rest := parse_format (InField []) r in Ok (Text cur :: rest)
        | [] => Err FormatError
        end
      else if N.eqb c RBRACE then
        match r with
        | c' :: r' =>
            if N.eqb c' RBRACE then parse_format (InText (cur ++ [RBRACE])) r'
            else Err FormatError
        | [] => Err FormatError
        end
      else parse_format (InText (cur ++ [c])) r
  | c :: r, InField field_name =>
      if N.eqb c RBRACE
      then try! rest := parse_format (InText []) r in Ok (Field field_name :: rest)
      else parse_format (InField (field_name ++ [c])) r
  end.

(** [kwargs[key]] *)
Fixpoint lookup_kwarg (kwargs : list (str * str)) (key : str) : reply str :=
  match kwargs with
  | [] => Err (KeyError key)
  | (k, v) :: rest => if str_eqb k key then Ok v else lookup_kwarg rest key
  end.

Fixpoint substitute (pieces : list piece) (kwargs : list (str * str)) : reply str :=
  match pieces with
  | [] => Ok []
  | Text s :: rest =>
      try! tail := substitute rest kwargs in Ok (s ++ tail)
  | Field key :: rest =>
      try! v := lookup_kwarg kwargs key in
      try! tail := substitute rest kwargs in
      Ok (v ++ tail)
  end.

Definition field_names (pieces : list piece) : list str :=
  flat_map (fun p => match p with Field k => [k] | Text _ => [] end) pieces.

(** The strict formatter: every keyword argument must be used. *)
Definition strict_format (template : str) (kwargs : list (str * str)) : reply str :=
  try! pieces := parse_format (InText []) template in
  try! text := substitute pieces kwargs in
  match List.filter (fun kv => negb (in_list (fst kv) (field_names pieces))) kwargs with
  | [] => Ok text
  | (k, _) :: _ => Err (KeyError k)
  end.

(** *** [PromptTemplate] *)

Record prompt_template : Type := mkPrompt {
  input_variables : list str;
  template : str
}.

(** The constructor validates the template by formatting it with a dummy
    value for every input variable. *)
Definition PromptTemplate (vars : list str) (tpl : str) : reply prompt_template :=
  try! _ := strict_format tpl (List.map (fun v => (v, lit "foo")) vars) in
  Ok {| input_variables := vars; template := tpl |}.

Definition format (p : prompt_template) (kwargs : list (str * str)) : reply str :=
  strict_format (template p) kwargs.

(** The template of the source, line by line; a backslash at the end of a
    line of the literal joins it with the next one. *)
Definition template_summary : str :=
  [LF] ++
  lit "    " ++ [QUOTE] ++
  lit "Given a chat history (delimited by <hs></hs>) and the latest user question " ++
  lit "    which might reference context in the chat history, formulate a standalone question " ++
  lit "    which can be understood without the chat history. Do NOT answer the question, " ++
  lit "    just reformulate it if needed and otherwise return it as is." ++ [LF] ++
  lit "    ------" ++ [LF] ++
  lit "    <hs>" ++ [LF] ++
  lit "    {history}" ++ [LF] ++
  lit "    </hs>" ++ [LF] ++
  lit "    ------" ++ [LF] ++
  lit "    Question: {question}" ++ [LF] ++
  lit "    Summary:" ++ [LF] ++
  lit "    ".

Definition conversation_history_prompt (history question : str) : reply str :=
  try! prompt := PromptTemplate [lit "history"; lit "question"] template_summary in
  format prompt [(lit "history", history); (lit "question", question)].

(** The three literal parts of the prompt. *)
Definition prompt_head : str :=
  [LF] ++
  lit "    " ++ [QUOTE] ++
  lit "Given a chat history (delimited by <hs></hs>) and the latest user question " ++
  lit "    which might reference context in the chat history, formulate a standalone question " ++
  lit "    which can be understood without the chat history. Do NOT answer the question, " ++
  lit "    just reformulate it if needed and otherwise return it as is." ++ [LF] ++
  lit "    ------" ++ [LF] ++
  lit "    <hs>" ++ [LF] ++
  lit "    ".

Definition prompt_middle : str :=
  [LF] ++ lit "    </hs>" ++ [LF] ++ lit "    ------" ++ [LF] ++ lit "    Question: ".

Definition prompt_tail : str :=
  [LF] ++ lit "    Summary:" ++ [LF] ++ lit "    ".

(** *** The chat completion *)

Record chat_message : Type := mkMessage {
  role : str;
  content : str
}.

Record chat_request : Type := mkRequest {
  engine : str;
  messages : list chat_message;
  temperature_tenths : N          (* temperature=0.5 *)
}.

Record chat_choice : Type := mkChoice {
  message : gmap str str
}.

Record chat_response : Type := mkResponse {
  choices : list chat_choice
}.

Definition request_for (formatted_prompt : str) : chat_request :=
  {| engine := lit "Voicetask";
     messages := [ {| role := lit "system"; content := lit "You are a helpful assistant." |};
                   {| role := lit "user"; content := formatted_prompt |} ];
     temperature_tenths := 5 |}.

Section Summary.

(** [openai.ChatCompletion.create]: the answer of the service to a
    request, or the exception the call raises; the answer may depend on
    the requests the service has received before. *)
Variable ChatCompletion_create :
  list chat_request -> chat_request -> result chat_response.

(** The state is the list of the requests made so far, answered or not. *)
Definition get_conversation_summary (history question : str)
    (sent : list chat_request) : reply str * list chat_request :=
  match conversation_history_prompt history question with
  | Err e => (Err e, sent)
  | Ok formatted_prompt =>
      let request := request_for formatted_prompt in
      (match ChatCompletion_create sent request with
       | Raise e => Err (Builtin e)
       | Return response =>
           match choices response with
           | [] => Err (Builtin IndexError)              (* response.choices[0] *)
           | choice :: _ =>
               match message choice !! lit "content" with
               | Some text => Ok text
               | None => Err (KeyError (lit "content"))
               end
           end
       end,
       sent ++ [request])
  end.

End Summary.

End Conversation.

(** ** More sample installations *)

Definition sample_pages : list page := [[lit "Hello"; lit "World"]; [lit "Bye"]].

(** A recognized line with a lone surrogate, as a JSON escape can give. *)
Definition surrogate_pages : list page := [[[55296%N]]].

(** PDF tools that work: the reader holds the number of bytes and counts
    that many pages, none failing; the first remote request is answered
    with [sample_pages], the later ones with [surrogate_pages]. *)
Definition office_lib : Libs :=
  {| secure_filename := fun s => s;
     pdf_reader := nat;
     PdfReader := fun bs => Return (length bs);
     pdf_num_pages := fun n => if Nat.eqb n 0 then Raise (LibraryError 3) else Return n;
     Presentation := fun s => (Return deck_A_B, s);
     client := unit;
     DocumentAnalysisClient := fun _ _ => Return tt;
     analyze_read := fun _ n _ => if Nat.eqb n 0 then Return sample_pages
                                  else Return surrogate_pages;
     makedirs_error := fun _ _ => None;
     open_w_error := fun _ _ => None |}.

Definition scan_objs (h : nat) : UploadedFile :=
  match h with
  | 0 => upload (lit "scan.PDF") [x25; x50; x44; x46]
  | 1 => upload (lit "empty.pdf") []
  | _ => upload (lit "slides.pptx") [x50; x4b]
  end.

Definition scan_world : world :=
  {| objs := scan_objs; fs := ∅; environ := sample_environ;
     svc_calls := 0; log := [] |}.

(** The same world after one request to the remote service. *)
Definition scan_world_later : world :=
  {| objs := scan_objs; fs := ∅; environ := sample_environ;
     svc_calls := 1; log := [] |}.

(** A chat service that answers its first request with two choices, and
    fails from then on. *)
Definition sample_chat (sent : list Conversation.chat_request)
    (request : Conversation.chat_request) : result Conversation.chat_response :=
  match sent with
  | [] =>
      Return {| Conversation.choices :=
                  [ {| Conversation.message := {[ lit "content" := lit "What is RAG?" ]} |};
                    {| Conversation.message := {[ lit "content" := lit "Who knows?" ]} |} ] |}
  | _ :: _ => Raise (LibraryError 429)
  end.

(** * Properties *)

(** ** The built-ins on sample inputs *)

Example allowed_files_notes_PDF : allowed_files (lit "notes.PDF") = Return true.
Proof. reflexivity. Qed.

Example allowed_files_notesx : allowed_files (lit "notesx") = Return false.
Proof. reflexivity. Qed.

Example allowed_files_two_dots : allowed_files (lit "a.txt.exe") = Return false.
Proof. reflexivity. Qed.

Example splitlines_three :
  splitlines (lit "line1" ++ [LF] ++ lit "line2" ++ [LF] ++ lit "line3")
  = [lit "line1"; lit "line2"; lit "line3"].
Proof. reflexivity. Qed.

Example splitlines_crlf :
  splitlines (lit "a" ++ [CR; LF] ++ lit "b" ++ [CR] ++ [LF; LF])
  = [lit "a"; lit "b"; []].
Proof. reflexivity. Qed.

Example utf8_decode_e_acute : utf8_decode [xc3; xa9] = Return [233%N].
Proof. reflexivity. Qed.

Example utf8_decode_overlong : utf8_decode [xc0; x80] = Raise UnicodeDecodeError.
Proof. reflexivity. Qed.

Example utf8_roundtrip_euro :
  utf8_encode [8364%N] = Return [xe2; x82; xac] /\
  utf8_decode [xe2; x82; xac] = Return [8364%N].
Proof. split; reflexivity. Qed.

(** ** Strings *)

Lemma contains_char_In (c : char) (s : str) :
  contains_char c s = true <-> In c s.
Proof.
  unfold contains_char. rewrite existsb_exists. split.
  - intros [x [Hx Heq]]. apply N.eqb_eq in Heq. now subst.
  - intros H. exists c. split; [assumption | apply N.eqb_refl].
Qed.

Lemma rfind_None (c : char) (s : str) :
  rfind c s = None <-> ~ In c s.
Proof.
  induction s as [| x r IH]; simpl.
  - tauto.
  - destruct (rfind c r) as [i |].
    + split; [discriminate |]. intros H. exfalso.
      assert (Hr : ~ In c r) by tauto.
      apply IH in Hr. discriminate.
    + destruct (N.eqb_spec x c) as [-> | Hne].
      * split; [discriminate |]. intros H. exfalso. apply H. now left.
      * split; [| reflexivity]. intros _ [Heq | Hin]; [congruence |].
        revert Hin. now apply IH.
Qed.

Lemma rfind_last_occurrence (c : char) (pre suf : str) :
  ~ In c suf -> rfind c (pre ++ c :: suf) = Some (length pre).
Proof.
  intros Hsuf. induction pre as [| x pre IH]; simpl.
  - apply rfind_None in Hsuf. rewrite Hsuf. now rewrite N.eqb_refl.
  - now rewrite IH.
Qed.

Lemma rfind_Some (c : char) (s : str) (i : nat) :
  rfind c s = Some i ->
  s = take i s ++ c :: drop (S i) s /\ ~ In c (drop (S i) s).
Proof.
  revert i. induction s as [| x r IH]; simpl; intros i H; [discriminate |].
  destruct (rfind c r) as [j |] eqn:Hr.
  - injection H as <-. destruct (IH j eq_refl) as [Heq Hnot].
    simpl. split; [now rewrite <- Heq | assumption].
  - destruct (N.eqb_spec x c) as [-> | Hne]; [| discriminate].
    injection H as <-. simpl. rewrite drop_0.
    split; [reflexivity | now apply rfind_None].
Qed.

Lemma rsplit1_no_sep (c : char) (s : str) :
  ~ In c s -> rsplit1 c s = [s].
Proof.
  intros H. unfold rsplit1. apply rfind_None in H. now rewrite H.
Qed.

Lemma rsplit1_last_sep (c : char) (pre suf : str) :
  ~ In c suf -> rsplit1 c (pre ++ c :: suf) = [pre; suf].
Proof.
  intros H. unfold rsplit1. rewrite (rfind_last_occurrence c pre suf H).
  rewrite take_app_length.
  replace (S (length pre)) with (length (pre ++ [c])).
  - now rewrite (app_assoc pre [c] suf : pre ++ c :: suf = (pre ++ [c]) ++ suf),
      drop_app_length.
  - rewrite length_app. simpl. lia.
Qed.

(** A file name either has no dot, or splits in one way at its last dot. *)
Lemma last_dot_decomposition (c : char) (s : str) :
  ~ In c s \/ exists pre suf, s = pre ++ c :: suf /\ ~ In c suf.
Proof.
  destruct (rfind c s) as [i |] eqn:H.
  - right. apply rfind_Some in H as [Heq Hnot]. eauto.
  - left. now apply rfind_None.
Qed.

Lemma in_list_In (x : str) (l : list str) :
  in_list x l = true <-> In x l.
Proof.
  unfold in_list, str_eqb. rewrite existsb_exists. split.
  - intros [y [Hy Heq]]. apply bool_decide_eq_true in Heq. now subst.
  - intros H. exists x. split; [assumption | now apply bool_decide_eq_true].
Qed.

Lemma extension_of_no_dot (fname : str) :
  ~ In DOT fname -> extension_of fname = Raise IndexError.
Proof.
  intros H. unfold extension_of. now rewrite (rsplit1_no_sep _ _ H).
Qed.

Lemma extension_of_last_dot (pre suf : str) :
  ~ In DOT suf -> extension_of (pre ++ DOT :: suf) = Return (lower suf).
Proof.
  intros H. unfold extension_of. now rewrite (rsplit1_last_sep _ _ _ H).
Qed.

(** ** [allowed_files] *)

(** C4: [allowed_files] never raises, and answers [True] exactly for the
    names that contain a dot and whose part after the last dot, in lower
    case, is [pdf], [txt] or [pptx]; a name without a dot gives [False]. *)
Theorem allowed_files_iff (filename : str) :
  exists b : bool,
    allowed_files filename = Return b /\
    (b = true <->
       In DOT filename /\
       exists pre suf, filename = pre ++ DOT :: suf /\ ~ In DOT suf /\
                       In (lower suf) [lit "pdf"; lit "txt"; lit "pptx"]) /\
    (~ In DOT filename -> b = false).
Proof.
  unfold allowed_files.
  destruct (last_dot_decomposition DOT filename) as [Hno | (pre & suf & -> & Hsuf)].
  - assert (Hc : contains_char DOT filename = false).
    { destruct (contains_char DOT filename) eqn:E; [| reflexivity].
      apply contains_char_In in E. contradiction. }
    rewrite Hc. exists false. split; [reflexivity |]. split; [| reflexivity].
    split; [discriminate |]. intros [Hin _]. contradiction.
  - assert (Hin : In DOT (pre ++ DOT :: suf)).
    { apply in_or_app. right. now left. }
    assert (Hc := proj2 (contains_char_In _ _) Hin). rewrite Hc.
    rewrite (rsplit1_last_sep _ _ _ Hsuf). simpl.
    exists (in_list (lower suf) allowed_files_list).
    split; [reflexivity |]. split; [| intros Hn; contradiction].
    rewrite in_list_In. split.
    + intros H. split; [assumption |]. exists pre, suf. auto.
    + intros (_ & pre' & suf' & Heq & Hsuf' & Hmem).
      assert (Hs : [pre; suf] = [pre'; suf']).
      { rewrite <- (rsplit1_last_sep DOT pre suf Hsuf), Heq.
        now apply rsplit1_last_sep. }
      injection Hs as _ ->. exact Hmem.
Qed.

(** ** [splitlines] *)

Lemma splitlines_from_trailing_newline (n : nat) :
  forall (s cur : str) (c : char),
    length s <= n ->
    is_linebreak c = false ->
    splitlines_from cur (s ++ [c; LF]) = splitlines_from cur (s ++ [c]).
Proof.
  induction n as [| n IH]; intros s cur c Hlen Hc.
  - destruct s; [| simpl in Hlen; lia].
    simpl. rewrite Hc. simpl. now destruct cur.
  - destruct s as [| x r].
    + simpl. rewrite Hc. simpl. now destruct cur.
    + simpl in Hlen. simpl. destruct (is_linebreak x) eqn:Hx.
      * destruct r as [| y r']; simpl.
        -- assert (Hne : N.eqb c LF = false).
           { destruct (N.eqb_spec c LF) as [-> |]; [discriminate | reflexivity]. }
           rewrite Hne, andb_false_r.
           f_equal. apply (IH [] [] c); [simpl; lia | assumption].
        -- destruct (N.eqb x CR && N.eqb y LF).
           ++ f_equal. apply IH; [simpl in Hlen; lia | assumption].
           ++ f_equal. apply (IH (y :: r')); [simpl in *; lia | assumption].
      * apply IH; [lia | assumption].
Qed.

(** A newline after a non-empty last line adds no line. *)
Lemma splitlines_trailing_newline (s : str) (c : char) :
  is_linebreak c = false ->
  splitlines (s ++ [c; LF]) = splitlines (s ++ [c]).
Proof.
  intros Hc. unfold splitlines.
  now apply (splitlines_from_trailing_newline (length s)).
Qed.

(** ** UTF-8 *)

Lemma byte_of_to_N (b : byte) : byte_of_N (Byte.to_N b) = b.
Proof. unfold byte_of_N. now rewrite Byte.of_to_N. Qed.

Lemma utf8_encode_char_2 (n0 n1 : N) :
  in_range 194 223 n0 = true -> in_range 128 191 n1 = true ->
  utf8_encode_char ((n0 - 192) * 64 + (n1 - 128)) = Some [byte_of_N n0; byte_of_N n1].
Proof.
  unfold utf8_encode_char, in_range. intros H0 H1.
  apply andb_true_iff in H0 as [H0a H0b]. apply andb_true_iff in H1 as [H1a H1b].
  apply N.leb_le in H0a, H0b, H1a, H1b.
  set (c := ((n0 - 192) * 64 + (n1 - 128))%N).
  assert (Hc : (128 <= c < 2048)%N) by (unfold c; lia).
  destruct (N.ltb_spec c 128); [lia |].
  destruct (N.ltb_spec c 2048); [| lia].
  assert (Hd : (c / 64 = n0 - 192)%N).
  { symmetry. apply (N.div_unique c 64 (n0 - 192) (n1 - 128)); unfold c; lia. }
  assert (Hm : (c mod 64 = n1 - 128)%N).
  { symmetry. apply (N.mod_unique c 64 (n0 - 192) (n1 - 128)); unfold c; lia. }
  rewrite Hd, Hm. repeat f_equal; lia.
Qed.

Ltac range_hyps :=
  repeat match goal with
         | H : _ && _ = true |- _ => apply andb_true_iff in H as [? ?]
         | H : (_ <=? _)%N = true |- _ => apply N.leb_le in H
         | H : context [N.eqb ?a ?b] |- _ => destruct (N.eqb_spec a b); cbv iota in H
         end.

Lemma utf8_encode_char_3 (n0 n1 n2 : N) :
  in_range 224 239 n0 = true ->
  in_range (if N.eqb n0 224 then 160 else 128)
           (if N.eqb n0 237 then 159 else 191) n1 = true ->
  in_range 128 191 n2 = true ->
  utf8_encode_char ((n0 - 224) * 4096 + (n1 - 128) * 64 + (n2 - 128))
  = Some [byte_of_N n0; byte_of_N n1; byte_of_N n2].
Proof.
  unfold utf8_encode_char, in_range. intros H0 H1 H2. range_hyps; try lia.
  all: set (c := ((n0 - 224) * 4096 + (n1 - 128) * 64 + (n2 - 128))%N).
  all: assert (Hd : (c / 64 = (n0 - 224) * 64 + (n1 - 128))%N)
    by (symmetry; apply (N.div_unique c 64 _ (n2 - 128)); unfold c; lia).
  all: assert (Hm : (c mod 64 = n2 - 128)%N)
    by (symmetry; apply (N.mod_unique c 64 ((n0 - 224) * 64 + (n1 - 128)) (n2 - 128));
        unfold c; lia).
  all: assert (Hd2 : (c / 4096 = n0 - 224)%N)
    by (symmetry; apply (N.div_unique c 4096 _ ((n1 - 128) * 64 + (n2 - 128)));
        unfold c; lia).
  all: assert (Hm2 : ((c / 64) mod 64 = n1 - 128)%N)
    by (rewrite Hd; symmetry;
        apply (N.mod_unique _ 64 (n0 - 224) (n1 - 128)); lia).
  all: destruct (N.ltb_spec c 128); [unfold c in *; lia |].
  all: destruct (N.ltb_spec c 2048); [unfold c in *; lia |].
  all: destruct (N.ltb_spec c 65536); [| unfold c in *; lia].
  all: destruct (N.leb_spec 55296 c); destruct (N.leb_spec c 57343); cbn [andb];
    try (exfalso; unfold c in *; lia).
  all: rewrite Hd2, Hm2, Hm; repeat f_equal; lia.
Qed.

Lemma utf8_encode_char_4 (n0 n1 n2 n3 : N) :
  in_range 240 244 n0 = true ->
  in_range (if N.eqb n0 240 then 144 else 128)
           (if N.eqb n0 244 then 143 else 191) n1 = true ->
  in_range 128 191 n2 = true ->
  in_range 128 191 n3 = true ->
  utf8_encode_char ((n0 - 240) * 262144 + (n1 - 128) * 4096
                    + (n2 - 128) * 64 + (n3 - 128))
  = Some [byte_of_N n0; byte_of_N n1; byte_of_N n2; byte_of_N n3].
Proof.
  unfold utf8_encode_char, in_range. intros H0 H1 H2 H3. range_hyps; try lia.
  all: set (c := ((n0 - 240) * 262144 + (n1 - 128) * 4096
                  + (n2 - 128) * 64 + (n3 - 128))%N).
  all: assert (Hd : (c / 64 = (n0 - 240) * 4096 + (n1 - 128) * 64 + (n2 - 128))%N)
    by (symmetry; apply (N.div_unique c 64 _ (n3 - 128)); unfold c; lia).
  all: assert (Hm : (c mod 64 = n3 - 128)%N)
    by (symmetry;
        apply (N.mod_unique c 64 ((n0 - 240) * 4096 + (n1 - 128) * 64 + (n2 - 128))
                 (n3 - 128)); unfold c; lia).
  all: assert (Hd2 : (c / 4096 = (n0 - 240) * 64 + (n1 - 128))%N)
    by (symmetry; apply (N.div_unique c 4096 _ ((n2 - 128) * 64 + (n3 - 128)));
        unfold c; lia).
  all: assert (Hd3 : (c / 262144 = n0 - 240)%N)
    by (symmetry;
        apply (N.div_unique c 262144 _
                 ((n1 - 128) * 4096 + (n2 - 128) * 64 + (n3 - 128)));
        unfold c; lia).
  all: assert (Hm2 : ((c / 64) mod 64 = n2 - 128)%N)
    by (rewrite Hd; symmetry;
        apply (N.mod_unique _ 64 ((n0 - 240) * 64 + (n1 - 128)) (n2 - 128)); lia).
  all: assert (Hm3 : ((c / 4096) mod 64 = n1 - 128)%N)
    by (rewrite Hd2; symmetry;
        apply (N.mod_unique _ 64 (n0 - 240) (n1 - 128)); lia).
  all: destruct (N.ltb_spec c 128); [unfold c in *; lia |].
  all: destruct (N.ltb_spec c 2048); [unfold c in *; lia |].
  all: destruct (N.ltb_spec c 65536); [unfold c in *; lia |].
  all: destruct (N.ltb_spec c 1114112); [| unfold c in *; lia].
  all: rewrite Hd3, Hm3, Hm2, Hm; repeat f_equal; lia.
Qed.

Lemma utf8_encode_char_1 (n0 : N) :
  (n0 <? 128)%N = true -> utf8_encode_char n0 = Some [byte_of_N n0].
Proof. unfold utf8_encode_char. now intros ->. Qed.

(** Encoding what was decoded gives the bytes back. *)
Lemma utf8_roundtrip_len (n : nat) :
  forall (bs : bytes) (s : str),
    length bs <= n ->
    utf8_decode_opt bs = Some s -> utf8_encode_opt s = Some bs.
Proof.
  induction n as [| n IH]; intros bs s Hlen Hdec.
  - destruct bs; [| simpl in Hlen; lia]. injection Hdec as <-. reflexivity.
  - destruct bs as [| b0 r0]; [injection Hdec as <-; reflexivity |].
    simpl in Hlen. cbn [utf8_decode_opt] in Hdec. cbv zeta in Hdec.
    destruct (Byte.to_N b0 <? 128)%N eqn:H1.
    { destruct (utf8_decode_opt r0) as [s' |] eqn:Hr; [| discriminate].
      injection Hdec as <-. cbn [utf8_encode_opt].
      rewrite (utf8_encode_char_1 _ H1), (IH r0 s' ltac:(lia) Hr), byte_of_to_N. reflexivity. }
    destruct (in_range 194 223 (Byte.to_N b0)) eqn:H2.
    { destruct r0 as [| b1 r1]; [discriminate |].
      destruct (in_range 128 191 (Byte.to_N b1)) eqn:H21; [| discriminate].
      destruct (utf8_decode_opt r1) as [s' |] eqn:Hr; [| discriminate].
      injection Hdec as <-. cbn [utf8_encode_opt].
      rewrite (utf8_encode_char_2 _ _ H2 H21), (IH r1 s' ltac:(simpl in Hlen; lia) Hr),
        !byte_of_to_N. reflexivity. }
    destruct (in_range 224 239 (Byte.to_N b0)) eqn:H3.
    { destruct r0 as [| b1 [| b2 r2]]; [discriminate | discriminate |].
      match type of Hdec with
      | (if ?a && ?b then _ else _) = _ =>
          destruct a eqn:H31; [| discriminate]; destruct b eqn:H32; [| discriminate]
      end.
      cbn [andb] in Hdec.
      destruct (utf8_decode_opt r2) as [s' |] eqn:Hr; [| discriminate].
      injection Hdec as <-. cbn [utf8_encode_opt].
      rewrite (utf8_encode_char_3 _ _ _ H3 H31 H32), (IH r2 s' ltac:(simpl in Hlen; lia) Hr),
        !byte_of_to_N. reflexivity. }
    destruct (in_range 240 244 (Byte.to_N b0)) eqn:H4; [| discriminate].
    destruct r0 as [| b1 [| b2 [| b3 r3]]]; [discriminate | discriminate | discriminate |].
    match type of Hdec with
    | (if ?a && ?b && ?c then _ else _) = _ =>
        destruct a eqn:H41; [| discriminate]; destruct b eqn:H42; [| discriminate];
        destruct c eqn:H43; [| discriminate]
    end.
    cbn [andb] in Hdec.
    destruct (utf8_decode_opt r3) as [s' |] eqn:Hr; [| discriminate].
    injection Hdec as <-. cbn [utf8_encode_opt].
    rewrite (utf8_encode_char_4 _ _ _ _ H4 H41 H42 H43), (IH r3 s' ltac:(simpl in Hlen; lia) Hr),
      !byte_of_to_N. reflexivity.
Qed.

Lemma utf8_roundtrip (bs : bytes) (s : str) :
  utf8_decode bs = Return s -> utf8_encode s = Return bs.
Proof.
  unfold utf8_decode, utf8_encode.
  destruct (utf8_decode_opt bs) as [s' |] eqn:H; [| discriminate].
  intros [= <-]. now rewrite (utf8_roundtrip_len (length bs) bs s' (le_n _) H).
Qed.

(** ** [file_check_num] *)

Section FileCheckNum.

Variable lib : Libs.


Lemma objs_set_obj_same (w : world) (h : nat) (f : UploadedFile) :
  objs (set_obj w h f) h = f.
Proof. simpl. now rewrite Nat.eqb_refl. Qed.

Lemma read_open (w : world) (h : nat) :
  closed (body (objs w h)) = false ->
  read h w = (Return (drop (pos (body (objs w h))) (data (body (objs w h)))),
              set_obj w h (consumed (objs w h))).
Proof. intros H. unfold read. now rewrite H. Qed.

Lemma seek0_after_read (w : world) (h : nat) :
  seek0 h (set_obj w h (consumed (objs w h)))
  = (Return tt, set_obj (set_obj w h (consumed (objs w h))) h (rewound (objs w h))).
Proof. unfold seek0. rewrite objs_set_obj_same. reflexivity. Qed.

(** The TXT branch on a readable stream whose bytes decode. *)
Lemma file_check_num_txt (w : world) (h : nat) (text : str) :
  extension_of (name (objs w h)) = Return (lit "txt") ->
  closed (body (objs w h)) = false ->
  utf8_decode (drop (pos (body (objs w h))) (data (body (objs w h)))) = Return text ->
  file_check_num lib h w
  = (Return (len (splitlines text)),
     set_obj (set_obj w h (consumed (objs w h))) h (rewound (objs w h))).
Proof.
  intros Hext Hopen Hdec.
  unfold file_check_num, bindM, file_name, lift. rewrite Hext.
  change (str_eqb (lit "txt") (lit "pdf")) with false.
  change (str_eqb (lit "txt") (lit "pptx")) with false.
  change (str_eqb (lit "txt") (lit "txt")) with true.
  cbv iota. unfold try_except.
  rewrite (read_open w h Hopen), Hdec, seek0_after_read. reflexivity.
Qed.

(** C8: for a file whose name has no dot, the extension is taken outside
    the [try] block, so [file_check_num] raises ([IndexError]) and returns
    no sentinel; nothing has been read or logged. *)
Theorem file_check_num_no_dot_raises (w : world) (h : nat) :
  ~ In DOT (name (objs w h)) ->
  file_check_num lib h w = (Raise IndexError, w).
Proof.
  intros H. unfold file_check_num, bindM, file_name, lift.
  now rewrite (extension_of_no_dot _ H).
Qed.

(** C9: for a TXT upload the count is the number of lines of
    [str.splitlines]: empty content gives 0, the content ["a\n"] gives 1,
    and in general a newline after a non-empty last line adds nothing. *)
Theorem file_check_num_txt_counts_lines (w : world) (h : nat) (text : str) :
  extension_of (name (objs w h)) = Return (lit "txt") ->
  closed (body (objs w h)) = false ->
  utf8_decode (drop (pos (body (objs w h))) (data (body (objs w h)))) = Return text ->
  fst (file_check_num lib h w) = Return (len (splitlines text)) /\
  (text = [] -> fst (file_check_num lib h w) = Return 0%Z) /\
  (text = lit "a" ++ [LF] -> fst (file_check_num lib h w) = Return 1%Z) /\
  (forall (s : str) (c : char),
     text = s ++ [c; LF] -> is_linebreak c = false ->
     fst (file_check_num lib h w) = Return (len (splitlines (s ++ [c])))).
Proof.
  intros Hext Hopen Hdec.
  rewrite (file_check_num_txt w h text Hext Hopen Hdec). simpl fst.
  split; [reflexivity |]. split; [| split].
  - intros ->. reflexivity.
  - intros ->. reflexivity.
  - intros s c -> Hc. now rewrite splitlines_trailing_newline.
Qed.

(** With a dot in the name, no exception leaves [file_check_num]. *)
Lemma file_check_num_returns (w : world) (h : nat) (e : str) :
  extension_of (name (objs w h)) = Return e ->
  exists (z : Z) (w' : world), file_check_num lib h w = (Return z, w').
Proof.
  intros Hext. unfold file_check_num, bindM at 1 2, file_name, lift.
  rewrite Hext. unfold try_except.
  match goal with
  | |- context [let (r, w') := ?m w in _] => destruct (m w) as [[z | e'] w1]
  end.
  - eauto.
  - eexists _, _. reflexivity.
Qed.

Lemma utf8_decode_error_nonempty (bs : bytes) (e : exn) :
  utf8_decode bs = Raise e -> bs <> [].
Proof. intros H ->. discriminate. Qed.

(** C2: when the decoding of a TXT upload raises, [file_check_num]
    returns [-1], but the [seek(0)] of the branch has been skipped: the
    stream is left at its end, which is not offset 0. *)
Theorem file_check_num_failure_leaves_position (w : world) (h : nat) :
  extension_of (name (objs w h)) = Return (lit "txt") ->
  closed (body (objs w h)) = false ->
  utf8_decode (drop (pos (body (objs w h))) (data (body (objs w h))))
    = Raise UnicodeDecodeError ->
  fst (file_check_num lib h w) = Return (-1)%Z /\
  pos (body (objs (snd (file_check_num lib h w)) h))
    = length (data (body (objs w h))) /\
  pos (body (objs (snd (file_check_num lib h w)) h)) <> 0.
Proof.
  intros Hext Hopen Hdec.
  assert (Hlt : pos (body (objs w h)) < length (data (body (objs w h)))).
  { apply utf8_decode_error_nonempty in Hdec.
    destruct (Nat.lt_ge_cases (pos (body (objs w h)))
                              (length (data (body (objs w h))))) as [Hl | Hg];
      [assumption |].
    exfalso. apply Hdec. now apply drop_ge. }
  unfold file_check_num, bindM, file_name, lift. rewrite Hext.
  change (str_eqb (lit "txt") (lit "pdf")) with false.
  change (str_eqb (lit "txt") (lit "pptx")) with false.
  change (str_eqb (lit "txt") (lit "txt")) with true.
  cbv iota. unfold try_except.
  rewrite (read_open w h Hopen), Hdec. simpl.
  rewrite Nat.eqb_refl. simpl. split; [reflexivity |]. lia.
Qed.

End FileCheckNum.

(** ** Tactics for running the monadic code *)

Ltac innermost_match H :=
  match type of H with
  | context [match ?x with _ => _ end] =>
      lazymatch x with
      | context [match _ with _ => _ end] => fail
      | _ => destruct x eqn:?
      end
  end.

Ltac case_eqb :=
  match goal with
  | |- context [Nat.eqb ?a ?b] =>
      destruct (Nat.eqb_spec a b); try subst; cbn [name body data closed pos]
  end.

Ltac run_count H :=
  unfold file_check_num, try_except, bindM, file_name, logger, read, seek0, lift, ret in H;
  cbn [objs set_obj add_log] in H; rewrite ?Nat.eqb_refl in H;
  cbn [name body data pos closed] in H;
  repeat innermost_match H; try discriminate H;
  injection H as <- <-.

Ltac decide_lit :=
  repeat match goal with
         | |- context [str_eqb (lit ?a) (lit ?b)] =>
             let v := eval vm_compute in (str_eqb (lit a) (lit b)) in
             change (str_eqb (lit a) (lit b)) with v
         end.

(** ** The loops that build the text *)

Lemma shapes_fold (sl : list shape) :
  forall acc : str,
    fold_left
      (fun acc sh =>
         match shape_text sh with
         | Some t => acc ++ t ++ [LF]
         | None => acc
         end) sl acc
    = acc ++ concat (List.map shape_line sl).
Proof.
  induction sl as [| sh sl IH]; intros acc; simpl.
  - now rewrite app_nil_r.
  - rewrite IH. unfold shape_line at 2.
    destruct (shape_text sh); [now rewrite <- app_assoc | reflexivity].
Qed.

Lemma slides_fold (slides : list slide) :
  forall acc : str,
    fold_left
      (fun extracted_content sl =>
         fold_left
           (fun acc sh =>
              match shape_text sh with
              | Some t => acc ++ t ++ [LF]
              | None => acc
              end) sl extracted_content) slides acc
    = acc ++ slides_text slides.
Proof.
  unfold slides_text.
  induction slides as [| sl slides IH]; intros acc; simpl.
  - now rewrite app_nil_r.
  - now rewrite IH, shapes_fold, <- app_assoc.
Qed.

(** The loops of the PPTX branch produce the slide-by-slide text. *)
Lemma pptx_shapes_text_spec (slides : list slide) :
  pptx_shapes_text slides = slides_text slides.
Proof. unfold pptx_shapes_text. now rewrite slides_fold. Qed.

(** The loops of the PDF branch produce the page-by-page text. *)
Lemma page_fold (pg : page) :
  forall acc : str,
    fold_left (fun acc line_content => acc ++ line_content ++ [LF]) pg acc
    = acc ++ page_text pg.
Proof.
  unfold page_text.
  induction pg as [| l pg IH]; intros acc; simpl.
  - now rewrite app_nil_r.
  - rewrite IH. now rewrite <- !app_assoc.
Qed.

Lemma pdf_lines_text_spec (pages : list page) :
  pdf_lines_text pages = pages_text pages.
Proof.
  unfold pdf_lines_text, pages_text.
  enough (H : forall acc,
             fold_left
               (fun extracted_content pg =>
                  fold_left (fun acc line_content => acc ++ line_content ++ [LF])
                            pg extracted_content) pages acc
             = acc ++ concat (List.map page_text pages)) by apply (H []).
  induction pages as [| pg pages IH]; intros acc; simpl.
  - now rewrite app_nil_r.
  - now rewrite IH, page_fold, <- app_assoc.
Qed.

(** ** [extract_contents_from_doc] *)

Section Extraction.

Variable lib : Libs.
Variable temp_dir : str.

Lemma extract_ready (w : world) (c : client lib) (files : list nat) :
  ready lib temp_dir w c ->
  extract_contents_from_doc lib files temp_dir w
  = for_files lib c temp_dir [] files (add_log w (InfoTempDirReady temp_dir)).
Proof.
  intros (endpoint & key & He & Hne & Hk & Hnk & Hc & Hd).
  unfold extract_contents_from_doc, bindM, getenv.
  fold ENDPOINT_VAR KEY_VAR. rewrite He, Hk.
  destruct endpoint as [| e0 endpoint]; [congruence |].
  destruct key as [| k0 key]; [congruence |].
  simpl. unfold lift. rewrite Hc. unfold makedirs. rewrite Hd.
  reflexivity.
Qed.

(** Outside any [try]: a failure of the client's constructor or of
    [os.makedirs] leaves the call as an exception, before the loop. *)
Lemma extract_setup_raises (w : world) (files : list nat) (endpoint key : str) (e : exn) :
  environ w !! ENDPOINT_VAR = Some endpoint -> endpoint <> [] ->
  environ w !! KEY_VAR = Some key -> key <> [] ->
  DocumentAnalysisClient lib endpoint key = Raise e \/
  (exists c, DocumentAnalysisClient lib endpoint key = Return c /\
             makedirs_error lib (fs w) temp_dir = Some e) ->
  extract_contents_from_doc lib files temp_dir w = (Raise e, w).
Proof.
  intros He Hne Hk Hnk Hfail.
  unfold extract_contents_from_doc, bindM, getenv.
  fold ENDPOINT_VAR KEY_VAR. rewrite He, Hk.
  destruct endpoint as [| e0 endpoint]; [congruence |].
  destruct key as [| k0 key]; [congruence |].
  simpl. unfold lift, makedirs.
  destruct Hfail as [-> | (c & -> & ->)]; reflexivity.
Qed.

Lemma supported_ext_cases (ext : str) :
  supported_ext ext
  = str_eqb ext (lit ".pdf") || str_eqb ext (lit ".txt") || str_eqb ext (lit ".pptx").
Proof.
  unfold supported_ext, in_list. simpl. now rewrite orb_false_r, orb_assoc.
Qed.


Ltac next_scrutinee :=
  match goal with
  | |- context [match ?x with _ => _ end] =>
      lazymatch x with
      | context [match _ with _ => _ end] => fail
      | _ => destruct x eqn:?
      end
  end.

(** One iteration of the loop, with its accumulator and its handler, has
    the outcome the file has: the list gains the path written, if any. *)
Lemma loop_body_outcome (c : client lib) (acc : list str) (file : nat) (w : world) :
  loop_body lib c temp_dir acc file w
  = (Return (acc ++ written_paths [fst (outcome_of lib c temp_dir file w)]),
     snd (outcome_of lib c temp_dir file w)).
Proof.
  unfold loop_body, outcome_of, extracted_text, sanitized_ext, artifact_path.
  unfold bindM at 1. unfold file_name at 1.
  set (fname := name (objs w file)).
  destruct (splitext (secure_filename lib fname)) as [base ext] eqn:Hsplit.
  cbn [fst snd]. rewrite supported_ext_cases.
  unfold try_except, bindM, file_name. fold fname. rewrite Hsplit. cbn [snd].
  destruct (str_eqb (lower ext) (lit ".pdf")) eqn:Hpdf;
    [| destruct (str_eqb (lower ext) (lit ".txt")) eqn:Htxt;
       [| destruct (str_eqb (lower ext) (lit ".pptx")) eqn:Hpptx]];
    cbn [orb].
  4: { cbn. now rewrite app_nil_r. }
  all: unfold logger, lift, ret.
  all: repeat first [ rewrite pdf_lines_text_spec
                    | rewrite pptx_shapes_text_spec
                    | next_scrutinee ].
  all: cbn [fst snd written_paths flat_map]; rewrite ?app_nil_r; reflexivity.
Qed.




(** What it takes for a file to count as written: the artifact is in the
    file system, holding the encoding of a text, and the last record of
    the log says so. *)
Lemma outcome_of_written (c : client lib) (file : nat) (w : world) (p : str) :
  fst (outcome_of lib c temp_dir file w) = Written p ->
  p = artifact_path lib temp_dir (name (objs w file)) /\
  (exists content bs, utf8_encode content = Return bs /\
                      fs (snd (outcome_of lib c temp_dir file w)) !! p = Some bs) /\
  last (log (snd (outcome_of lib c temp_dir file w))) = Some (InfoSaved p).
Proof.
  destruct (outcome_of lib c temp_dir file w) as [o w'] eqn:H. cbn [fst snd].
  intros ->. unfold outcome_of in H.
  destruct (supported_ext _); [| discriminate].
  unfold bindM in H.
  destruct (extracted_text lib c file w) as [[content | e] w1]; [| discriminate].
  unfold write_text in H.
  destruct (open_w_error lib (fs w1) _) as [e |]; [discriminate |].
  destruct (utf8_encode content) as [bs | e] eqn:Henc; [| discriminate].
  injection H as <- <-. split; [reflexivity |]. split.
  - exists content, bs. split; [exact Henc |]. cbn. apply lookup_insert_eq.
  - cbn. apply last_snoc.
Qed.




(** C3: when the endpoint or the key is absent (or empty), the call
    returns the empty list at once: the only effect is the logged
    configuration error; no file has been read and nothing written. *)
Theorem extract_without_credentials (files : list nat) (w : world) :
  environ w !! ENDPOINT_VAR = None \/ environ w !! ENDPOINT_VAR = Some [] \/
  environ w !! KEY_VAR = None \/ environ w !! KEY_VAR = Some [] ->
  extract_contents_from_doc lib files temp_dir w
  = (Return [], add_log w ErrCredentialsMissing).
Proof.
  intros H. unfold extract_contents_from_doc, bindM, getenv.
  fold ENDPOINT_VAR KEY_VAR.
  assert (Hf : falsy (environ w !! ENDPOINT_VAR) || falsy (environ w !! KEY_VAR) = true).
  { destruct H as [H | [H | [H | H]]]; rewrite H; cbn [falsy];
      [reflexivity | reflexivity | apply orb_true_r | apply orb_true_r]. }
  rewrite Hf. reflexivity.
Qed.

(** *** One TXT file *)

Lemma write_text_ok (file_path content : str) (bs : bytes) (w : world) :
  open_w_error lib (fs w) file_path = None ->
  utf8_encode content = Return bs ->
  write_text lib file_path content w
  = (Return tt, set_fs w (<[file_path := bs]> (fs w))).
Proof. intros Ho He. unfold write_text. now rewrite Ho, He. Qed.

Lemma loop_body_txt (c : client lib) (acc : list str) (file : nat) (w : world)
    (content : str) :
  let f := objs w file in
  let p := artifact_path lib temp_dir (name f) in
  sanitized_ext lib (name f) = lit ".txt" ->
  closed (body f) = false ->
  utf8_decode (drop (pos (body f)) (data (body f))) = Return content ->
  open_w_error lib (fs w) p = None ->
  exists w',
    loop_body lib c temp_dir acc file w = (Return (acc ++ [p]), w') /\
    fs w' = <[p := drop (pos (body f)) (data (body f))]> (fs w) /\
    environ w' = environ w.
Proof.
  intros f p Hext Hopen Hdec Hw.
  unfold loop_body, bindM at 1, file_name at 1.
  unfold sanitized_ext in Hext. subst p. unfold artifact_path in *. fold f.
  destruct (splitext (secure_filename lib (name f))) as [base ext].
  cbn [fst snd] in *. rewrite Hext.
  change (str_eqb (lit ".txt") (lit ".pdf")) with false.
  change (str_eqb (lit ".txt") (lit ".txt")) with true.
  cbv iota. unfold try_except, bindM, logger, lift, ret.
  rewrite (read_open (add_log w (InfoProcessingTXT (name f))) file Hopen).
  cbn [objs add_log]. fold f. rewrite Hdec.
  match goal with
  | |- context [write_text lib ?pp ?cc ?ww] =>
      rewrite (write_text_ok pp cc _ ww Hw (utf8_roundtrip _ _ Hdec))
  end.
  eexists. split; [reflexivity |]. split; reflexivity.
Qed.

Lemma extract_single_txt (c : client lib) (file : nat) (w : world) (content : str) :
  let f := objs w file in
  let p := artifact_path lib temp_dir (name f) in
  ready lib temp_dir w c ->
  sanitized_ext lib (name f) = lit ".txt" ->
  closed (body f) = false ->
  utf8_decode (drop (pos (body f)) (data (body f))) = Return content ->
  open_w_error lib (fs w) p = None ->
  exists w',
    extract_contents_from_doc lib [file] temp_dir w = (Return [p], w') /\
    fs w' !! p = Some (drop (pos (body f)) (data (body f))).
Proof.
  intros f p Hready Hext Hopen Hdec Hw.
  rewrite (extract_ready w c [file] Hready). cbn [for_files]. unfold bindM.
  destruct (loop_body_txt c [] file (add_log w (InfoTempDirReady temp_dir))
              content Hext Hopen Hdec Hw) as (w' & -> & Hfs & _).
  exists w'. split; [reflexivity |]. rewrite Hfs. apply lookup_insert_eq.
Qed.

(** *** One PPTX file *)

Lemma extract_single_pptx (c : client lib) (file : nat) (w : world)
    (slides : list slide) (s' : stream) (bs : bytes) :
  let f := objs w file in
  let p := artifact_path lib temp_dir (name f) in
  ready lib temp_dir w c ->
  sanitized_ext lib (name f) = lit ".pptx" ->
  Presentation lib (body f) = (Return slides, s') ->
  utf8_encode (slides_text slides) = Return bs ->
  open_w_error lib (fs w) p = None ->
  exists w',
    extract_contents_from_doc lib [file] temp_dir w = (Return [p], w') /\
    fs w' !! p = Some bs.
Proof.
  intros f p Hready Hext Hparse Henc Hw.
  rewrite (extract_ready w c [file] Hready). cbn [for_files]. unfold bindM at 1.
  unfold loop_body, bindM at 1, file_name at 1. cbn [objs add_log]. fold f.
  unfold sanitized_ext in Hext. subst p. unfold artifact_path in *.
  destruct (splitext (secure_filename lib (name f))) as [base ext].
  cbn [fst snd] in *. rewrite Hext.
  change (str_eqb (lit ".pptx") (lit ".pdf")) with false.
  change (str_eqb (lit ".pptx") (lit ".txt")) with false.
  change (str_eqb (lit ".pptx") (lit ".pptx")) with true.
  cbv iota. unfold try_except, bindM, logger, lift, ret, Presentation_of.
  cbn [objs add_log]. fold f. rewrite Hparse.
  rewrite pptx_shapes_text_spec.
  match goal with
  | |- context [write_text lib ?pp ?cc ?ww] =>
      rewrite (write_text_ok pp cc bs ww Hw Henc)
  end.
  eexists. split; [reflexivity |]. cbn [fs set_fs add_log]. apply lookup_insert_eq.
Qed.

(** C6: for one TXT upload whose bytes decode to the three lines, the
    metric count is 3 and leaves the stream rewound, and the extraction
    that follows writes the artifact [<base>_extracted.txt] in the output
    directory; its content is the upload's bytes, unchanged, that is, the
    three lines. *)
Theorem txt_three_lines_end_to_end (c : client lib) (h : nat) (w : world) :
  let f := objs w h in
  let p := artifact_path lib temp_dir (name f) in
  ready lib temp_dir w c ->
  extension_of (name f) = Return (lit "txt") ->
  sanitized_ext lib (name f) = lit ".txt" ->
  closed (body f) = false ->
  pos (body f) = 0 ->
  utf8_decode (data (body f)) = Return three_lines ->
  open_w_error lib (fs w) p = None ->
  fst (file_check_num lib h w) = Return 3%Z /\
  p = path_join temp_dir
        (fst (splitext (secure_filename lib (name f))) ++ lit "_extracted.txt") /\
  data (body f) = ascii_bytes three_lines /\
  (exists w',
     extract_contents_from_doc lib [h] temp_dir (snd (file_check_num lib h w))
     = (Return [p], w') /\
     fs w' !! p = Some (ascii_bytes three_lines)) /\
  (exists w',
     extract_contents_from_doc lib [h] temp_dir w = (Return [p], w') /\
     fs w' !! p = Some (ascii_bytes three_lines)).
Proof.
  intros f p Hready Hext Hsext Hopen Hpos Hdec Hw.
  assert (Hdrop : drop (pos (body f)) (data (body f)) = data (body f)).
  { rewrite Hpos. apply drop_0. }
  assert (Hbytes : data (body f) = ascii_bytes three_lines).
  { pose proof (utf8_roundtrip _ _ Hdec) as Henc.
    assert (Hlit : utf8_encode three_lines = Return (ascii_bytes three_lines))
      by (vm_compute; reflexivity).
    congruence. }
  assert (Hdec0 : utf8_decode (drop (pos (body f)) (data (body f))) = Return three_lines).
  { now rewrite Hdrop. }
  rewrite (file_check_num_txt lib w h three_lines Hext Hopen Hdec0).
  cbn [fst snd].
  split; [reflexivity |]. split; [reflexivity |]. split; [exact Hbytes |]. split.
  - set (w1 := set_obj (set_obj w h (consumed (objs w h))) h (rewound (objs w h))).
    assert (Hobj : objs w1 h = rewound f) by apply objs_set_obj_same.
    pose proof (extract_single_txt c h w1 three_lines) as H.
    cbv zeta in H. rewrite Hobj in H. cbn [rewound name body data pos closed] in H.
    rewrite drop_0 in H.
    destruct (H Hready Hsext eq_refl Hdec Hw) as (w' & Hrun & Hfs).
    exists w'. split; [exact Hrun |]. now rewrite <- Hbytes.
  - destruct (extract_single_txt c h w three_lines Hready Hsext Hopen Hdec0 Hw)
      as (w' & Hrun & Hfs).
    exists w'. split; [exact Hrun |]. subst p f. rewrite Hfs. congruence.
Qed.

(** C7: for a PPTX upload the artifact holds, slide after slide and shape
    after shape within a slide, the text of every shape that has one,
    each followed by a newline; for the deck of two slides with the texts
    ["A"] and ["B"] that is ["A\nB\n"]. *)
Theorem pptx_slides_then_shapes (c : client lib) (h : nat) (w : world)
    (slides : list slide) (s' : stream) (bs : bytes) :
  let f := objs w h in
  let p := artifact_path lib temp_dir (name f) in
  ready lib temp_dir w c ->
  sanitized_ext lib (name f) = lit ".pptx" ->
  Presentation lib (body f) = (Return slides, s') ->
  utf8_encode (slides_text slides) = Return bs ->
  open_w_error lib (fs w) p = None ->
  (exists w',
     extract_contents_from_doc lib [h] temp_dir w = (Return [p], w') /\
     fs w' !! p = Some bs) /\
  (slides = deck_A_B -> bs = ascii_bytes (lit "A" ++ [LF] ++ lit "B" ++ [LF])).
Proof.
  intros f p Hready Hext Hparse Henc Hw. split.
  - exact (extract_single_pptx c h w slides s' bs Hready Hext Hparse Henc Hw).
  - intros ->.
    assert (Hlit : utf8_encode (slides_text deck_A_B)
                   = Return (ascii_bytes (lit "A" ++ [LF] ++ lit "B" ++ [LF])))
      by (vm_compute; reflexivity).
    congruence.
Qed.

End Extraction.

(** ** [chunk_document] *)

Lemma len_app {A} (a b : list A) : len (a ++ b) = (len a + len b)%Z.
Proof. unfold len. rewrite length_app. lia. Qed.

Lemma len_nonneg {A} (a : list A) : (0 <= len a)%Z.
Proof. unfold len. lia. Qed.

Lemma sep_if_empty (b : bool) : Splitter.sep_if [] b = 0%Z.
Proof. now destruct b. Qed.

Lemma join_empty_separator (docs : list str) :
  Splitter.join [] docs = concat docs.
Proof.
  induction docs as [| d rest IH]; [reflexivity |].
  destruct rest as [| d' rest].
  - simpl. now rewrite app_nil_r.
  - change (Splitter.join [] (d :: d' :: rest))
      with (d ++ [] ++ Splitter.join [] (d' :: rest)).
    now rewrite IH.
Qed.

Lemma merge_loop_fits (cfg : Splitter.config) (splits : list str) :
  forall current : list str,
    (len (concat (current ++ splits)) <= Splitter.chunk_size cfg)%Z ->
    Splitter.merge_loop cfg []
      {| Splitter.docs := []; Splitter.current_doc := current;
         Splitter.total := len (concat current) |} splits
    = Return {| Splitter.docs := []; Splitter.current_doc := current ++ splits;
                Splitter.total := len (concat (current ++ splits)) |}.
Proof.
  induction splits as [| d rest IH]; intros current Hfit.
  - simpl. now rewrite app_nil_r.
  - cbn [Splitter.merge_loop]. unfold Splitter.merge_step.
    cbn [Splitter.docs Splitter.current_doc Splitter.total].
    rewrite !sep_if_empty.
    assert (Hstep : (len (concat current) + len d + 0
                     <= Splitter.chunk_size cfg)%Z).
    { rewrite (cons_middle d current rest), app_assoc, concat_app, len_app in Hfit.
      rewrite concat_app, len_app in Hfit. simpl in Hfit.
      rewrite app_nil_r in Hfit. pose proof (len_nonneg (concat rest)). lia. }
    destruct (Z.ltb_spec (Splitter.chunk_size cfg)
                (len (concat current) + len d + 0)) as [Hlt | _]; [lia |].
    cbn [bind Splitter.docs Splitter.current_doc Splitter.total].
    rewrite !sep_if_empty.
    replace (len (concat current) + (len d + 0))%Z
      with (len (concat (current ++ [d]))).
    + rewrite IH.
      * now rewrite <- app_assoc.
      * now rewrite <- app_assoc.
    + rewrite concat_app, len_app. simpl. rewrite app_nil_r. lia.
Qed.

Lemma merge_splits_fits (cfg : Splitter.config) (splits : list str) :
  (len (concat splits) <= Splitter.chunk_size cfg)%Z ->
  Splitter.merge_splits cfg [] splits = Return (stripped_chunks (concat splits)).
Proof.
  intros Hfit. unfold Splitter.merge_splits.
  pose proof (merge_loop_fits cfg splits [] Hfit) as Hloop.
  cbn [app concat] in Hloop. change (@len N []) with 0%Z in Hloop.
  rewrite Hloop.
  cbn [bind Splitter.docs Splitter.current_doc app].
  unfold Splitter.join_docs, stripped_chunks. rewrite join_empty_separator.
  now destruct (strip (concat splits)).
Qed.

Lemma split_loop_all_good (cfg : Splitter.config)
    (deeper : option (str -> result (list str))) (splits : list str) :
  forall final good : list str,
    Forall (fun s => (len s < Splitter.chunk_size cfg)%Z) splits ->
    Splitter.split_loop cfg deeper final good splits
    = match good ++ splits with
      | [] => Return final
      | _ => let! merged := Splitter.merge_splits cfg [] (good ++ splits) in
             Return (final ++ merged)
      end.
Proof.
  induction splits as [| s rest IH]; intros final good Hall.
  - rewrite app_nil_r. reflexivity.
  - inversion Hall as [| ? ? Hs Hrest]; subst.
    cbn [Splitter.split_loop].
    destruct (Z.ltb_spec (len s) (Splitter.chunk_size cfg)) as [_ | Hge]; [| lia].
    rewrite (IH final (good ++ [s]) Hrest), <- app_assoc. reflexivity.
Qed.

Lemma split_keep_concat (sep : char) (s : str) :
  forall cur : str, concat (Splitter.split_keep_from sep cur s) = cur ++ s.
Proof.
  induction s as [| c r IH]; intros cur; simpl.
  - reflexivity.
  - destruct (N.eqb c sep); simpl; rewrite IH; [reflexivity |].
    now rewrite <- app_assoc.
Qed.

Lemma concat_filter_nonempty (l : list str) :
  concat (List.filter Splitter.nonempty l) = concat l.
Proof.
  induction l as [| x l IH]; [reflexivity |].
  simpl. destruct x; simpl; now rewrite IH.
Qed.

Lemma split_text_with_regex_concat (text : str) (sep : char) :
  concat (Splitter.split_text_with_regex text sep) = text.
Proof.
  unfold Splitter.split_text_with_regex.
  now rewrite concat_filter_nonempty, split_keep_concat.
Qed.

Lemma piece_len_le_concat (l : list str) (x : str) :
  In x l -> (len x <= len (concat l))%Z.
Proof.
  induction l as [| y l IH]; [contradiction |].
  intros [-> | Hin]; simpl; rewrite len_app.
  - pose proof (len_nonneg (concat l)). lia.
  - specialize (IH Hin). pose proof (len_nonneg y). lia.
Qed.

Lemma split_once_short (cfg : Splitter.config)
    (deeper : option (str -> result (list str))) (text : str) (sep : char) :
  (len text < Splitter.chunk_size cfg)%Z ->
  Splitter.split_loop cfg deeper [] [] (Splitter.split_text_with_regex text sep)
  = Return (stripped_chunks text).
Proof.
  intros Hshort.
  pose proof (split_text_with_regex_concat text sep) as Hcat.
  rewrite split_loop_all_good.
  - cbn [app]. destruct (Splitter.split_text_with_regex text sep) as [| s0 rest] eqn:E.
    + simpl in Hcat. subst text. reflexivity.
    + rewrite merge_splits_fits; rewrite Hcat; [reflexivity | lia].
  - apply List.Forall_forall. intros x Hx.
    pose proof (piece_len_le_concat _ x Hx) as Hle. rewrite Hcat in Hle. lia.
Qed.

Lemma split_text_rec_short (cfg : Splitter.config) (seps : list char) (text : str) :
  seps <> [] ->
  (len text < Splitter.chunk_size cfg)%Z ->
  Splitter.split_text_rec cfg seps text = Return (stripped_chunks text).
Proof.
  intros Hne Hshort. induction seps as [| sep rest IH]; [congruence |].
  cbn [Splitter.split_text_rec]. destruct rest as [| sep' rest'].
  - now apply split_once_short.
  - destruct (contains_char sep text).
    + now apply split_once_short.
    + apply IH. discriminate.
Qed.

(** C5, as the splitter behaves: a text shorter than [chunk_size] (with
    [chunk_overlap <= chunk_size]) comes back as one chunk, the text
    stripped of its leading and trailing white space, and as no chunk at
    all when nothing is left; so the only chunk equals the input when the
    input is not empty and has no white space at either end. *)
Theorem chunk_document_short_text (text : str) (chunk_size chunk_overlap : Z) :
  (len text < chunk_size)%Z ->
  (chunk_overlap <= chunk_size)%Z ->
  chunk_document text chunk_size chunk_overlap = Return (stripped_chunks text) /\
  (text <> [] -> strip text = text ->
   chunk_document text chunk_size chunk_overlap = Return [text]).
Proof.
  intros Hshort Hover.
  assert (Hrun : chunk_document text chunk_size chunk_overlap
                 = Return (stripped_chunks text)).
  { unfold chunk_document, Splitter.init.
    destruct (Z.ltb_spec chunk_size chunk_overlap) as [Hlt | _]; [lia |].
    cbn [bind]. unfold Splitter.split_text. cbn [Splitter.separators].
    apply split_text_rec_short; [discriminate | exact Hshort]. }
  split; [exact Hrun |].
  intros Hne Hstrip. rewrite Hrun. unfold stripped_chunks. rewrite Hstrip.
  now destruct text.
Qed.

(** C5 as stated fails: two characters with the default sizes, and the
    chunk is not the input; the empty text gives no chunk. *)
Lemma chunk_document_short_text_not_identity :
  (len (lit " a") < 1000)%Z /\
  chunk_document (lit " a") 1000 300 = Return [lit "a"] /\
  chunk_document (lit " a") 1000 300 <> Return [lit " a"] /\
  chunk_document [] 1000 300 = Return [].
Proof.
  split; [reflexivity |]. split; [reflexivity |]. split; [| reflexivity].
  vm_compute. discriminate.
Qed.

(** C10: with [chunk_overlap > chunk_size] the constructor of the splitter
    raises ([ValueError]), whatever the text; no chunk sequence is
    returned. *)
Theorem chunk_document_overlap_exceeds_size
    (text : str) (chunk_size chunk_overlap : Z) :
  (chunk_size < chunk_overlap)%Z ->
  chunk_document text chunk_size chunk_overlap = Raise ValueError.
Proof.
  intros H. unfold chunk_document, Splitter.init.
  destruct (Z.ltb_spec chunk_size chunk_overlap) as [_ | Hge]; [reflexivity | lia].
Qed.

(** ** The theorems on the sample installation *)

Lemma sample_ready : ready sample_lib out_dir sample_world tt.
Proof.
  exists (lit "https://di.example"), (lit "secret").
  split; [vm_compute; reflexivity |]. split; [discriminate |].
  split; [vm_compute; reflexivity |]. split; [discriminate |].
  split; reflexivity.
Qed.


(** The outcomes of that batch: a text file, an image, a text file that
    is not UTF-8, a deck. *)
Example outcomes_sample_batch :
  fst (outcomes sample_lib tt out_dir [0; 5; 1; 2]
         (add_log sample_world (InfoTempDirReady out_dir)))
  = [Written (lit "tmp/notes_extracted.txt"); Skipped; Failed UnicodeDecodeError;
     Written (lit "tmp/deck_extracted.txt")].
Proof. vm_compute. reflexivity. Qed.

(** A file that fails does not stop the loop: the file after it is
    processed and its path returned. *)
Example extract_after_a_failure :
  fst (outcomes sample_lib tt out_dir [1; 0]
         (add_log sample_world (InfoTempDirReady out_dir)))
  = [Failed UnicodeDecodeError; Written (lit "tmp/notes_extracted.txt")] /\
  fst (extract_contents_from_doc sample_lib [1; 0] out_dir sample_world)
  = Return [lit "tmp/notes_extracted.txt"].
Proof. split; vm_compute; reflexivity. Qed.

Example extract_sample_batch :
  fst (extract_contents_from_doc sample_lib [0; 5; 1; 2] out_dir sample_world)
  = Return [lit "tmp/notes_extracted.txt"; lit "tmp/deck_extracted.txt"].
Proof. vm_compute. reflexivity. Qed.

Lemma extract_without_credentials_witness :
  (environ unconfigured_world !! ENDPOINT_VAR = None \/
   environ unconfigured_world !! ENDPOINT_VAR = Some [] \/
   environ unconfigured_world !! KEY_VAR = None \/
   environ unconfigured_world !! KEY_VAR = Some []) /\
  extract_contents_from_doc sample_lib [0; 1; 2] out_dir unconfigured_world
  = (Return [], add_log unconfigured_world ErrCredentialsMissing).
Proof.
  assert (H : environ unconfigured_world !! KEY_VAR = None)
    by (vm_compute; reflexivity).
  split; [right; right; left; exact H |].
  apply (extract_without_credentials sample_lib out_dir [0; 1; 2] unconfigured_world).
  right; right; left; exact H.
Defined.

Lemma file_check_num_no_dot_raises_witness :
  ~ In DOT (name (objs sample_world 3)) /\
  file_check_num sample_lib 3 sample_world = (Raise IndexError, sample_world).
Proof.
  assert (H : ~ In DOT (name (objs sample_world 3))).
  { intros Hin. apply contains_char_In in Hin. vm_compute in Hin. discriminate Hin. }
  split; [exact H |].
  apply (file_check_num_no_dot_raises sample_lib sample_world 3). exact H.
Defined.

Lemma file_check_num_txt_counts_lines_witness :
  extension_of (name (objs sample_world 4)) = Return (lit "txt") /\
  closed (body (objs sample_world 4)) = false /\
  utf8_decode (drop (pos (body (objs sample_world 4)))
                    (data (body (objs sample_world 4))))
    = Return (lit "a" ++ [LF]) /\
  fst (file_check_num sample_lib 4 sample_world) = Return 1%Z.
Proof.
  split; [reflexivity |]. split; [reflexivity |]. split; [reflexivity |].
  apply (file_check_num_txt_counts_lines sample_lib sample_world 4 (lit "a" ++ [LF]));
    reflexivity.
Defined.

Lemma file_check_num_failure_leaves_position_witness :
  extension_of (name (objs sample_world 1)) = Return (lit "txt") /\
  closed (body (objs sample_world 1)) = false /\
  utf8_decode (drop (pos (body (objs sample_world 1)))
                    (data (body (objs sample_world 1))))
    = Raise UnicodeDecodeError /\
  fst (file_check_num sample_lib 1 sample_world) = Return (-1)%Z /\
  pos (body (objs (snd (file_check_num sample_lib 1 sample_world)) 1)) = 1.
Proof.
  split; [reflexivity |]. split; [reflexivity |]. split; [reflexivity |].
  destruct (file_check_num_failure_leaves_position sample_lib sample_world 1
              eq_refl eq_refl eq_refl) as (Hret & Hpos & _).
  split; [exact Hret | exact Hpos].
Defined.

Lemma txt_three_lines_end_to_end_witness :
  ready sample_lib out_dir sample_world tt /\
  extension_of (name (objs sample_world 0)) = Return (lit "txt") /\
  sanitized_ext sample_lib (name (objs sample_world 0)) = lit ".txt" /\
  closed (body (objs sample_world 0)) = false /\
  pos (body (objs sample_world 0)) = 0 /\
  utf8_decode (data (body (objs sample_world 0))) = Return three_lines /\
  open_w_error sample_lib (fs sample_world)
    (artifact_path sample_lib out_dir (name (objs sample_world 0))) = None /\
  fst (file_check_num sample_lib 0 sample_world) = Return 3%Z /\
  artifact_path sample_lib out_dir (name (objs sample_world 0))
    = lit "tmp/notes_extracted.txt" /\
  exists w',
    extract_contents_from_doc sample_lib [0] out_dir
      (snd (file_check_num sample_lib 0 sample_world))
    = (Return [artifact_path sample_lib out_dir (name (objs sample_world 0))], w') /\
    fs w' !! artifact_path sample_lib out_dir (name (objs sample_world 0))
    = Some (ascii_bytes three_lines).
Proof.
  split; [exact sample_ready |].
  split; [reflexivity |]. split; [reflexivity |]. split; [reflexivity |].
  split; [reflexivity |]. split; [reflexivity |]. split; [reflexivity |].
  destruct (txt_three_lines_end_to_end sample_lib out_dir tt 0 sample_world
              sample_ready eq_refl eq_refl eq_refl eq_refl eq_refl eq_refl)
    as (Hcount & _ & _ & Hextract & _).
  split; [exact Hcount |]. split; [reflexivity |]. exact Hextract.
Defined.

(** The order matters: counting after the extraction finds the stream at
    its end, and no line. *)
Example count_after_extraction :
  fst (file_check_num sample_lib 0
         (snd (extract_contents_from_doc sample_lib [0] out_dir sample_world)))
  = Return 0%Z.
Proof. vm_compute. reflexivity. Qed.

(** The same file object twice in a batch: the second pass reads nothing
    and overwrites the artifact with an empty one. *)
Example extract_same_object_twice :
  fst (extract_contents_from_doc sample_lib [0; 0] out_dir sample_world)
  = Return [lit "tmp/notes_extracted.txt"; lit "tmp/notes_extracted.txt"] /\
  fs (snd (extract_contents_from_doc sample_lib [0; 0] out_dir sample_world))
    !! lit "tmp/notes_extracted.txt" = Some [].
Proof. split; vm_compute; reflexivity. Qed.

Lemma pptx_slides_then_shapes_witness :
  ready sample_lib out_dir sample_world tt /\
  sanitized_ext sample_lib (name (objs sample_world 2)) = lit ".pptx" /\
  Presentation sample_lib (body (objs sample_world 2))
    = (Return deck_A_B, body (objs sample_world 2)) /\
  utf8_encode (slides_text deck_A_B)
    = Return (ascii_bytes (lit "A" ++ [LF] ++ lit "B" ++ [LF])) /\
  open_w_error sample_lib (fs sample_world)
    (artifact_path sample_lib out_dir (name (objs sample_world 2))) = None /\
  exists w',
    extract_contents_from_doc sample_lib [2] out_dir sample_world
    = (Return [artifact_path sample_lib out_dir (name (objs sample_world 2))], w') /\
    fs w' !! artifact_path sample_lib out_dir (name (objs sample_world 2))
    = Some (ascii_bytes (lit "A" ++ [LF] ++ lit "B" ++ [LF])).
Proof.
  split; [exact sample_ready |].
  split; [reflexivity |]. split; [reflexivity |]. split; [reflexivity |].
  split; [reflexivity |].
  exact (proj1 (pptx_slides_then_shapes sample_lib out_dir tt 2 sample_world
                  deck_A_B (body (objs sample_world 2))
                  (ascii_bytes (lit "A" ++ [LF] ++ lit "B" ++ [LF]))
                  sample_ready eq_refl eq_refl eq_refl eq_refl)).
Defined.

Lemma chunk_document_short_text_witness :
  (len (lit "hello world") < 1000)%Z /\
  (300 <= 1000)%Z /\
  chunk_document (lit "hello world") 1000 300 = Return [lit "hello world"].
Proof.
  split; [reflexivity |]. split; [discriminate |].
  apply (proj2 (chunk_document_short_text (lit "hello world") 1000 300
                  eq_refl ltac:(discriminate))).
  - discriminate.
  - reflexivity.
Defined.

Lemma chunk_document_overlap_exceeds_size_witness :
  (100 < 200)%Z /\
  chunk_document (lit "some text") 100 200 = Raise ValueError.
Proof.
  split; [reflexivity |].
  apply (chunk_document_overlap_exceeds_size (lit "some text") 100 200).
  reflexivity.
Defined.

(** * Further properties *)

(** ** More on [file_check_num] *)

Section Count.

Variable lib : Libs.

Lemma count_frame (h : nat) (w : world) :
  let w' := snd (file_check_num lib h w) in
  fs w' = fs w /\ environ w' = environ w /\ svc_calls w' = svc_calls w /\
  (forall h', h' <> h -> objs w' h' = objs w h') /\
  name (objs w' h) = name (objs w h) /\
  data (body (objs w' h)) = data (body (objs w h)) /\
  closed (body (objs w' h)) = closed (body (objs w h)).
Proof.
  intros w'. subst w'.
  destruct (file_check_num lib h w) as [r w'] eqn:H. cbn [snd].
  run_count H.
  all: cbn [fs environ svc_calls objs set_obj add_log].
  all: rewrite ?Nat.eqb_refl; cbn [name body data closed].
  all: repeat split; try reflexivity; try congruence.
  all: intros h' Hh'; repeat case_eqb; congruence.
Qed.

(** X1: [file_check_num] changes nothing but the position of that one stream
    (and the log). *)
Theorem file_check_num_frame (h : nat) (w : world) :
  let w' := snd (file_check_num lib h w) in
  fs w' = fs w /\ environ w' = environ w /\ svc_calls w' = svc_calls w /\
  (forall h', h' <> h -> objs w' h' = objs w h') /\
  name (objs w' h) = name (objs w h) /\
  data (body (objs w' h)) = data (body (objs w h)) /\
  closed (body (objs w' h)) = closed (body (objs w h)).
Proof. exact (count_frame h w). Qed.

Lemma count_success_rewinds (h : nat) (w w' : world) (z : Z) :
  file_check_num lib h w = (Return z, w') ->
  (0 <= z)%Z ->
  pos (body (objs w' h)) = 0.
Proof.
  intros H Hz. run_count H.
  all: try (exfalso; lia).
  all: cbn [objs set_obj add_log]; rewrite ?Nat.eqb_refl; reflexivity.
Qed.

(** X2: Whenever a count (not the sentinel) is returned, the stream is back
    at offset 0. *)
Theorem file_check_num_success_rewinds (h : nat) (w w' : world) (z : Z) :
  file_check_num lib h w = (Return z, w') ->
  (0 <= z)%Z ->
  pos (body (objs w' h)) = 0.
Proof. exact (count_success_rewinds h w w' z). Qed.

(** X3: With a dot in the name the call never raises, and its result is a
    count or the sentinel [-1]. *)
Theorem file_check_num_result_range (h : nat) (w : world) :
  In DOT (name (objs w h)) ->
  exists (z : Z) (w' : world),
    file_check_num lib h w = (Return z, w') /\ (-1 <= z)%Z.
Proof.
  intros Hdot.
  destruct (last_dot_decomposition DOT (name (objs w h)))
    as [Hno | (pre & suf & Hname & Hsuf)]; [contradiction |].
  pose proof (extension_of_last_dot pre suf Hsuf) as Hext. rewrite <- Hname in Hext.
  destruct (file_check_num lib h w) as [r w'] eqn:H.
  unfold file_check_num, bindM at 1 2, file_name, lift in H. rewrite Hext in H.
  fold (file_name h) in H.
  unfold try_except, bindM, logger, read, seek0, lift, ret in H;
  cbn [objs set_obj add_log] in H; rewrite ?Nat.eqb_refl in H;
  cbn [name body data pos closed] in H;
  repeat innermost_match H; try discriminate H;
  injection H as <- <-.
  all: eexists _, _; split; [reflexivity | unfold len; lia].
Qed.

Lemma allowed_files_false_extension (fname : str) :
  In DOT fname ->
  allowed_files fname = Return false ->
  exists e, extension_of fname = Return e /\
            str_eqb e (lit "pdf") = false /\
            str_eqb e (lit "txt") = false /\
            str_eqb e (lit "pptx") = false.
Proof.
  intros Hdot. apply contains_char_In in Hdot.
  unfold allowed_files, extension_of. rewrite Hdot.
  destruct (index (rsplit1 DOT fname) 1) as [ext | e]; [| discriminate].
  cbn [bind]. intros [= H]. exists (lower ext). split; [reflexivity |].
  unfold in_list, allowed_files_list in H. cbn [existsb] in H.
  apply orb_false_iff in H as [Hpdf H]. apply orb_false_iff in H as [Htxt H].
  apply orb_false_iff in H as [Hpptx _]. auto.
Qed.

(** X4: An ASCII name with a dot that [allowed_files] rejects: the count is
    the sentinel, the lowercased extension is logged, and the stream is
    not read. *)
Theorem file_check_num_rejected_name (h : nat) (w : world) :
  is_ascii (name (objs w h)) = true ->
  In DOT (name (objs w h)) ->
  allowed_files (name (objs w h)) = Return false ->
  exists e,
    extension_of (name (objs w h)) = Return e /\
    file_check_num lib h w = (Return (-1)%Z, add_log w (ErrUnsupportedExtension e)).
Proof.
  intros _ Hdot Hrej.
  destruct (allowed_files_false_extension _ Hdot Hrej) as (e & Hext & Hpdf & Htxt & Hpptx).
  exists e. split; [exact Hext |].
  unfold file_check_num, bindM at 1 2, file_name, lift. rewrite Hext.
  rewrite Hpdf, Hpptx, Htxt. reflexivity.
Qed.

(** X5: A name that [allowed_files] accepts always reaches one of the three
    counting branches: the result is a count with nothing logged, or the
    sentinel with the caught exception logged. *)
Theorem file_check_num_accepted_name (h : nat) (w : world) :
  allowed_files (name (objs w h)) = Return true ->
  exists (z : Z) (w' : world),
    file_check_num lib h w = (Return z, w') /\
    (((0 <= z)%Z /\ log w' = log w) \/
     (z = (-1)%Z /\
      exists e, log w' = log w ++ [ErrCheckingFile (name (objs w h)) e])).
Proof.
  intros Hacc.
  assert (Hext : exists e, extension_of (name (objs w h)) = Return e /\
                           str_eqb e (lit "pdf") || str_eqb e (lit "txt")
                           || str_eqb e (lit "pptx") = true).
  { revert Hacc. unfold allowed_files, extension_of.
    destruct (contains_char DOT (name (objs w h))); [| discriminate].
    destruct (index (rsplit1 DOT (name (objs w h))) 1) as [ext | e]; [| discriminate].
    cbn [bind]. intros [= H]. exists (lower ext). split; [reflexivity |].
    unfold in_list, allowed_files_list in H. cbn [existsb] in H.
    now rewrite orb_false_r, orb_assoc in H. }
  destruct Hext as (e & Hext & Hsup).
  destruct (file_check_num lib h w) as [r w'] eqn:H.
  unfold file_check_num, bindM at 1 2, file_name, lift in H. rewrite Hext in H.
  unfold try_except, bindM, logger, read, seek0, lift, ret in H;
  cbn [objs set_obj add_log] in H; rewrite ?Nat.eqb_refl in H;
  cbn [name body data pos closed] in H.
  repeat innermost_match H; try discriminate H; try discriminate Hsup;
  injection H as <- <-.
  all: eexists _, _; split; [reflexivity |]; cbn [log set_obj add_log].
  all: first [ left; split; [unfold len; lia | reflexivity]
             | right; split; [reflexivity | eexists; reflexivity] ].
Qed.

(** The result depends on the world only through the file object. *)
Lemma file_check_num_depends_on_object (h : nat) (w1 w2 : world) :
  objs w1 h = objs w2 h ->
  fst (file_check_num lib h w1) = fst (file_check_num lib h w2).
Proof.
  intros Hobj.
  destruct (file_check_num lib h w1) as [r1 w1'] eqn:H1.
  destruct (file_check_num lib h w2) as [r2 w2'] eqn:H2. cbn [fst].
  unfold file_check_num, try_except, bindM, file_name, logger, read, seek0,
    lift, ret in H1, H2.
  repeat (cbn [objs set_obj add_log] in H1, H2;
          rewrite ?Nat.eqb_refl in H1, H2;
          cbn [name body data pos closed] in H1, H2;
          rewrite ?Hobj in H1;
          first [innermost_match H1 | innermost_match H2]).
  all: congruence.
Qed.

(** X6: Counting is repeatable: after a count on a stream at offset 0, a
    second count gives the same number. *)
Theorem file_check_num_twice (h : nat) (w w1 : world) (z : Z) :
  pos (body (objs w h)) = 0 ->
  file_check_num lib h w = (Return z, w1) ->
  (0 <= z)%Z ->
  fst (file_check_num lib h w1) = Return z.
Proof.
  intros Hpos H Hz.
  pose proof (count_success_rewinds h w w1 z H Hz) as Hpos1.
  pose proof (count_frame h w) as Hframe. cbv zeta in Hframe.
  rewrite H in Hframe. cbn [snd] in Hframe.
  destruct Hframe as (_ & _ & _ & _ & Hname & Hdata & Hclosed).
  assert (Hobj : objs w1 h = objs w h).
  { destruct (objs w1 h) as [n1 [d1 p1 c1]], (objs w h) as [n0 [d0 p0 c0]].
    cbn in *. congruence. }
  rewrite (file_check_num_depends_on_object h w1 w Hobj), H. reflexivity.
Qed.

(** X7: PDF and PPTX: the number of pages, the number of slides; the stream
    is rewound before the pages are counted, so a failure of the page
    count gives the sentinel on a rewound stream. *)
Theorem file_check_num_pages_and_slides (h : nat) (w : world) :
  let f := objs w h in
  let content := drop (pos (body f)) (data (body f)) in
  closed (body f) = false ->
  (extension_of (name f) = Return (lit "pptx") ->
   forall slides s',
     Presentation lib (BytesIO content) = (Return slides, s') ->
     fst (file_check_num lib h w) = Return (len slides)) /\
  (extension_of (name f) = Return (lit "pdf") ->
   forall reader,
     PdfReader lib content = Return reader ->
     fst (file_check_num lib h w)
     = match pdf_num_pages lib reader with
       | Return n => Return (Z.of_nat n)
       | Raise _ => Return (-1)%Z
       end /\
     pos (body (objs (snd (file_check_num lib h w)) h)) = 0).
Proof.
  intros f content Hopen. subst content f. split.
  - intros Hext slides s' Hparse.
    unfold file_check_num, bindM at 1 2, file_name, lift. rewrite Hext.
    change (str_eqb (lit "pptx") (lit "pdf")) with false.
    change (str_eqb (lit "pptx") (lit "pptx")) with true.
    cbv iota. unfold try_except, bindM, lift.
    rewrite (read_open w h Hopen), Hparse. cbn [fst].
    rewrite seek0_after_read. reflexivity.
  - intros Hext reader Hreader.
    destruct (file_check_num lib h w) as [r w'] eqn:H. cbn [fst snd].
    unfold file_check_num, bindM at 1 2, file_name, lift in H. rewrite Hext in H.
    change (str_eqb (lit "pdf") (lit "pdf")) with true in H.
    cbv iota in H. unfold try_except, bindM, lift in H.
    rewrite (read_open w h Hopen), Hreader, seek0_after_read in H.
    destruct (pdf_num_pages lib reader); injection H as <- <-;
      cbn [objs set_obj add_log]; rewrite ?Nat.eqb_refl; split; reflexivity.
Qed.

End Count.

(** ** More on [extract_contents_from_doc] *)

Section Frame.

Variable lib : Libs.
Variable temp_dir : str.

Lemma is_Some_insert_mono (m : gmap str bytes) (p q : str) (bs : bytes) :
  is_Some (m !! q) -> is_Some (<[p := bs]> m !! q).
Proof.
  intros H. destruct (decide (p = q)) as [-> | Hne].
  - rewrite lookup_insert_eq. eauto.
  - now rewrite lookup_insert_ne.
Qed.

Ltac frame_goal :=
  cbn [environ fs objs svc_calls log set_obj set_fs add_log tick_svc];
  repeat match goal with |- _ /\ _ => split end;
  [ reflexivity
  | intros h; repeat case_eqb; reflexivity
  | intros h Hh; repeat case_eqb; congruence
  | intros q Hq; rewrite ?lookup_insert_ne by congruence; reflexivity
  | intros q Hq; repeat apply is_Some_insert_mono; exact Hq
  | lia
  | lia
  | rewrite <- ?app_assoc; eexists; try reflexivity; symmetry; apply app_nil_r ].

Lemma loop_body_touches (c : client lib) (acc : list str) (file : nat) (w : world) :
  forall r w', loop_body lib c temp_dir acc file w = (r, w') ->
               touches lib temp_dir file w w'.
Proof.
  intros r w' H.
  unfold loop_body, try_except, bindM, file_name, logger, read, analyze,
    Presentation_of, write_text, lift, ret in H.
  unfold touches, sanitized_ext, artifact_path.
  destruct (splitext (secure_filename lib (name (objs w file)))) as [base ext].
  cbn [fst snd].
  repeat innermost_match H.
  all: try discriminate.
  all: injection H as <- <-.
  all: frame_goal.
Qed.

Lemma batch_touches_refl (files : list nat) (w : world) :
  batch_touches lib temp_dir files w w.
Proof.
  unfold batch_touches. repeat match goal with |- _ /\ _ => split end;
    try reflexivity; try lia; auto.
  exists []. now rewrite app_nil_r.
Qed.

Lemma batch_touches_log (files : list nat) (w w' : world) (r : log_record) :
  batch_touches lib temp_dir files (add_log w r) w' ->
  batch_touches lib temp_dir files w w'.
Proof.
  unfold batch_touches, is_pdf. cbn [environ objs fs svc_calls log add_log].
  intros (He & Hn & Ho & Hf & Hd & Hs1 & Hs2 & (more & Hl)).
  repeat match goal with |- _ /\ _ => split end; auto.
  exists (r :: more). rewrite Hl. now rewrite <- app_assoc.
Qed.

Lemma touches_then_batch (file : nat) (rest : list nat) (w w1 w' : world) :
  touches lib temp_dir file w w1 ->
  batch_touches lib temp_dir rest w1 w' ->
  batch_touches lib temp_dir (file :: rest) w w'.
Proof.
  unfold touches, batch_touches.
  intros (He & Hn & Ho & Hf & Hd & Hs1 & Hs2 & (more & Hl))
         (He' & Hn' & Ho' & Hf' & Hd' & Hs1' & Hs2' & (more' & Hl')).
  assert (Hpaths :
    List.map (fun h => artifact_path lib temp_dir (name (objs w1 h))) rest
    = List.map (fun h => artifact_path lib temp_dir (name (objs w h))) rest).
  { apply map_ext. intros h. now rewrite Hn. }
  assert (Hpdf : List.filter (is_pdf lib w1) rest = List.filter (is_pdf lib w) rest).
  { apply List.filter_ext. intros h. unfold is_pdf. now rewrite Hn. }
  rewrite Hpaths in Hf'. rewrite Hpdf in Hs2'.
  repeat match goal with |- _ /\ _ => split end.
  - congruence.
  - intros h. now rewrite Hn', Hn.
  - intros h Hh. rewrite Ho', Ho; [reflexivity | |];
      intros Hc; apply Hh; [left; congruence | now right].
  - intros q Hq. rewrite Hf', Hf; [reflexivity | |];
      intros Hc; apply Hq; [left; congruence | now right].
  - auto.
  - lia.
  - cbn [List.filter]. fold (is_pdf lib w file) in Hs2.
    destruct (is_pdf lib w file); cbn [length]; lia.
  - exists (more ++ more'). rewrite Hl', Hl. now rewrite app_assoc.
Qed.

Lemma loop_body_returns (c : client lib) (acc : list str) (file : nat) (w : world) :
  exists paths w', loop_body lib c temp_dir acc file w = (Return paths, w').
Proof.
  rewrite (loop_body_outcome lib temp_dir c acc file w). eauto.
Qed.

Lemma for_files_touches (c : client lib) (files : list nat) :
  forall (acc : list str) (w : world) r w',
    for_files lib c temp_dir acc files w = (r, w') ->
    batch_touches lib temp_dir files w w'.
Proof.
  induction files as [| file rest IH]; intros acc w r w' H.
  - injection H as <- <-. apply batch_touches_refl.
  - cbn [for_files] in H. unfold bindM in H.
    destruct (loop_body lib c temp_dir acc file w) as [[paths | e] w1] eqn:Hbody.
    + eapply touches_then_batch; [eapply loop_body_touches; eassumption |].
      eapply IH; eassumption.
    + destruct (loop_body_returns c acc file w) as (paths & w2 & Hret). congruence.
Qed.

(** The three ways the call can go. *)
Lemma extract_cases (files : list nat) (w : world) r w' :
  extract_contents_from_doc lib files temp_dir w = (r, w') ->
  (r = Return [] /\ w' = add_log w ErrCredentialsMissing) \/
  ((exists e, r = Raise e) /\ w' = w) \/
  (exists c, for_files lib c temp_dir [] files
               (add_log w (InfoTempDirReady temp_dir)) = (r, w')).
Proof.
  unfold extract_contents_from_doc, bindM, getenv, lift, makedirs, logger, ret.
  intros H.
  destruct (falsy _ || falsy _).
  - left. injection H as <- <-. auto.
  - destruct (DocumentAnalysisClient lib _ _) as [c | e].
    + destruct (makedirs_error lib (fs w) temp_dir) as [e |].
      * right. left. injection H as <- <-. eauto.
      * right. right. eauto.
    + right. left. injection H as <- <-. eauto.
Qed.

Lemma extract_touches (files : list nat) (w : world) :
  batch_touches lib temp_dir files w
    (snd (extract_contents_from_doc lib files temp_dir w)).
Proof.
  destruct (extract_contents_from_doc lib files temp_dir w) as [r w'] eqn:H.
  cbn [snd].
  destruct (extract_cases files w r w' H) as [[_ ->] | [[_ ->] | [c Hc]]].
  - apply batch_touches_log with (r := ErrCredentialsMissing). apply batch_touches_refl.
  - apply batch_touches_refl.
  - eapply batch_touches_log. eapply for_files_touches. exact Hc.
Qed.

(** *** Returned paths *)

Lemma for_files_paths_exist (c : client lib) (files : list nat) :
  forall (acc : list str) (w : world) paths w',
    for_files lib c temp_dir acc files w = (Return paths, w') ->
    exists new,
      paths = acc ++ new /\
      Forall (fun p => is_Some (fs w' !! p) /\
                       In p (List.map (fun h => artifact_path lib temp_dir
                                                  (name (objs w h))) files)) new.
Proof.
  induction files as [| file rest IH]; intros acc w paths w' H.
  - injection H as <- <-. exists []. split; [now rewrite app_nil_r | constructor].
  - cbn [for_files] in H. unfold bindM in H.
    pose proof (loop_body_outcome lib temp_dir c acc file w) as Hbody.
    pose proof (outcome_of_written lib temp_dir c file w) as Hstep.
    destruct (outcome_of lib c temp_dir file w) as [o w1]. cbn [fst snd] in Hbody, Hstep.
    rewrite Hbody in H.
    pose proof (loop_body_touches c acc file w _ _ Hbody) as (_ & Hn & _).
    pose proof (for_files_touches c rest _ _ _ _ H) as (_ & _ & _ & _ & Hd & _).
    destruct (IH _ _ _ _ H) as (new & -> & Hnew).
    exists (written_paths [o] ++ new). split; [now rewrite app_assoc |].
    apply Forall_app. split.
    + destruct o as [p | | e]; cbn; [| constructor | constructor].
      destruct (Hstep p eq_refl) as (-> & (content & bs & _ & Hp) & _).
      constructor; [| constructor]. split.
      * apply Hd. rewrite Hp. eauto.
      * now left.
    + eapply Forall_impl; [exact Hnew |]. intros p [Hp Hin]. split; [exact Hp |].
      right. erewrite map_ext; [exact Hin |]. intros h. cbn. now rewrite Hn.
Qed.

(** *** A batch of unsupported files *)

Lemma loop_body_unsupported (c : client lib) (acc : list str) (file : nat) (w : world) :
  supported_ext (sanitized_ext lib (name (objs w file))) = false ->
  loop_body lib c temp_dir acc file w
  = (Return acc, add_log w (WarnUnsupportedType (name (objs w file)))).
Proof.
  intros H. rewrite supported_ext_cases in H. unfold sanitized_ext in H.
  apply orb_false_iff in H as [H Hpptx]. apply orb_false_iff in H as [Hpdf Htxt].
  unfold loop_body, bindM at 1, file_name at 1.
  destruct (splitext (secure_filename lib (name (objs w file)))) as [base ext].
  cbn [fst snd] in *. rewrite Hpdf, Htxt, Hpptx. reflexivity.
Qed.

Lemma for_files_unsupported (c : client lib) (files : list nat) :
  forall (acc : list str) (w0 w : world),
    (forall h, name (objs w h) = name (objs w0 h)) ->
    Forall (fun h => supported_ext (sanitized_ext lib (name (objs w0 h))) = false) files ->
    for_files lib c temp_dir acc files w
    = (Return acc,
       fold_left (fun w1 h => add_log w1 (WarnUnsupportedType (name (objs w0 h))))
                 files w).
Proof.
  induction files as [| file rest IH]; intros acc w0 w Hn Hall; [reflexivity |].
  inversion Hall as [| ? ? Hfile Hrest]; subst.
  cbn [for_files fold_left]. unfold bindM.
  rewrite loop_body_unsupported by now rewrite Hn.
  rewrite Hn. apply IH; [| exact Hrest]. intros h. cbn. apply Hn.
Qed.

(** *** The PDF branch *)

Ltac enter_branch Hext :=
  unfold loop_body, bindM at 1, file_name at 1;
  unfold sanitized_ext in Hext; unfold artifact_path in *;
  match goal with
  | |- context [splitext ?n] => destruct (splitext n) as [base ext]
  end;
  cbn [fst snd] in *; rewrite Hext; decide_lit; cbv iota;
  unfold try_except, bindM, logger, lift, ret.

Lemma loop_body_pdf (c : client lib) (acc : list str) (file : nat) (w : world)
    (pages : list page) :
  let f := objs w file in
  let p := artifact_path lib temp_dir (name f) in
  sanitized_ext lib (name f) = lit ".pdf" ->
  closed (body f) = false ->
  analyze_read lib c (svc_calls w) (drop (pos (body f)) (data (body f))) = Return pages ->
  open_w_error lib (fs w) p = None ->
  loop_body lib c temp_dir acc file w
  = match utf8_encode (pages_text pages) with
    | Return bs =>
        (Return (acc ++ [p]),
         add_log
           (set_fs (tick_svc (add_log (set_obj w file (consumed f))
                                      (InfoProcessingPDF (name f))))
                   (<[p := bs]> (fs w)))
           (InfoSaved p))
    | Raise e =>
        (Return acc,
         add_log
           (set_fs (tick_svc (add_log (set_obj w file (consumed f))
                                      (InfoProcessingPDF (name f))))
                   (<[p := []]> (fs w)))
           (ErrProcessingFile (name f) e))
    end.
Proof.
  intros f p Hext Hopen Hsvc Hw. subst p f.
  enter_branch Hext.
  rewrite (read_open w file Hopen). unfold analyze.
  cbn [svc_calls add_log set_obj]. rewrite Hsvc.
  rewrite pdf_lines_text_spec. unfold write_text.
  cbn [fs tick_svc add_log set_obj]. rewrite Hw.
  destruct (utf8_encode (pages_text pages)); reflexivity.
Qed.

Lemma loop_body_txt_world (c : client lib) (acc : list str) (file : nat) (w : world) :
  let f := objs w file in
  let p := artifact_path lib temp_dir (name f) in
  sanitized_ext lib (name f) = lit ".txt" ->
  closed (body f) = false ->
  loop_body lib c temp_dir acc file w
  = match utf8_decode (drop (pos (body f)) (data (body f))) with
    | Return _ =>
        match open_w_error lib (fs w) p with
        | None =>
            (Return (acc ++ [p]),
             add_log
               (set_fs (set_obj (add_log w (InfoProcessingTXT (name f))) file
                                (consumed f))
                       (<[p := drop (pos (body f)) (data (body f))]> (fs w)))
               (InfoSaved p))
        | Some e =>
            (Return acc,
             add_log (set_obj (add_log w (InfoProcessingTXT (name f))) file
                              (consumed f))
                     (ErrProcessingFile (name f) e))
        end
    | Raise e =>
        (Return acc,
         add_log (set_obj (add_log w (InfoProcessingTXT (name f))) file (consumed f))
                 (ErrProcessingFile (name f) e))
    end.
Proof.
  intros f p Hext Hopen. subst p f.
  enter_branch Hext.
  rewrite (read_open (add_log w (InfoProcessingTXT (name (objs w file)))) file Hopen).
  cbn [objs add_log].
  destruct (utf8_decode _) as [text | e] eqn:Hdec; [| reflexivity].
  unfold write_text. cbn [fs add_log set_obj].
  destruct (open_w_error lib (fs w) _); [reflexivity |].
  now rewrite (utf8_roundtrip _ _ Hdec).
Qed.

(** *** What the call may change *)

(** X8: Only artifact paths of the batch are written, and no file is ever
    removed. *)
Theorem extract_file_system_frame (files : list nat) (w : world) :
  let w' := snd (extract_contents_from_doc lib files temp_dir w) in
  (forall q,
     ~ In q (List.map (fun h => artifact_path lib temp_dir (name (objs w h))) files) ->
     fs w' !! q = fs w !! q) /\
  (forall q, is_Some (fs w !! q) -> is_Some (fs w' !! q)).
Proof.
  intros w'. destruct (extract_touches files w) as (_ & _ & _ & Hf & Hd & _).
  split; assumption.
Qed.

(** X9: The environment is not changed, no file object is renamed, and the
    file objects outside the batch are left as they are. *)
Theorem extract_touches_only_the_batch (files : list nat) (w : world) :
  let w' := snd (extract_contents_from_doc lib files temp_dir w) in
  environ w' = environ w /\
  (forall h, name (objs w' h) = name (objs w h)) /\
  (forall h, ~ In h files -> objs w' h = objs w h).
Proof.
  intros w'. destruct (extract_touches files w) as (He & Hn & Ho & _).
  repeat split; assumption.
Qed.

(** X10: At most one request to the remote service per PDF file of the batch;
    none for a batch without PDF files. *)
Theorem extract_remote_calls (files : list nat) (w : world) :
  let w' := snd (extract_contents_from_doc lib files temp_dir w) in
  svc_calls w <= svc_calls w' /\
  svc_calls w' <= svc_calls w + length (List.filter (is_pdf lib w) files) /\
  (Forall (fun h => is_pdf lib w h = false) files -> svc_calls w' = svc_calls w).
Proof.
  intros w'. destruct (extract_touches files w) as (_ & _ & _ & _ & _ & H1 & H2 & _).
  fold w' in H1, H2. split; [exact H1 |]. split; [exact H2 |].
  intros Hall.
  assert (Hnil : List.filter (is_pdf lib w) files = []).
  { clear -Hall. induction Hall as [| h l Hh _ IH]; [reflexivity |].
    cbn [List.filter]. now rewrite Hh. }
  rewrite Hnil in H2. cbn [length] in H2. lia.
Qed.

(** X11: Every returned path is the artifact path of a file of the batch and
    names a file that exists when the call returns. *)
Theorem extract_returned_paths_exist (files : list nat) (w : world)
    (paths : list str) (w' : world) :
  extract_contents_from_doc lib files temp_dir w = (Return paths, w') ->
  Forall (fun p => is_Some (fs w' !! p) /\
                   In p (List.map (fun h => artifact_path lib temp_dir
                                              (name (objs w h))) files)) paths.
Proof.
  intros H.
  destruct (extract_cases files w _ _ H) as [[Hr _] | [[[e He] _] | [c Hc]]].
  - injection Hr as ->. constructor.
  - discriminate.
  - destruct (for_files_paths_exist c files _ _ _ _ Hc) as (new & -> & Hnew).
    exact Hnew.
Qed.

Lemma fold_add_log (g : nat -> log_record) (files : list nat) :
  forall w : world,
    fold_left (fun w1 h => add_log w1 (g h)) files w
    = {| objs := objs w; fs := fs w; environ := environ w;
         svc_calls := svc_calls w; log := log w ++ List.map g files |}.
Proof.
  induction files as [| h files IH]; intros w; cbn [fold_left List.map].
  - rewrite app_nil_r. now destruct w.
  - rewrite IH. cbn [objs fs environ svc_calls log add_log].
    now rewrite <- app_assoc.
Qed.

(** X12: A batch of unsupported files: nothing is read, nothing is written;
    the result is empty and the log gets one warning per file, in order. *)
Theorem extract_unsupported_batch (files : list nat) (w : world) (c : client lib) :
  ready lib temp_dir w c ->
  Forall (fun h => supported_ext (sanitized_ext lib (name (objs w h))) = false) files ->
  extract_contents_from_doc lib files temp_dir w
  = (Return [],
     {| objs := objs w; fs := fs w; environ := environ w;
        svc_calls := svc_calls w;
        log := log w ++ InfoTempDirReady temp_dir
                 :: List.map (fun h => WarnUnsupportedType (name (objs w h))) files |}).
Proof.
  intros Hready Hall. rewrite (extract_ready lib temp_dir w c files Hready).
  rewrite (for_files_unsupported c files [] w
             (add_log w (InfoTempDirReady temp_dir)) (fun h => eq_refl) Hall).
  f_equal.
  rewrite (fold_add_log (fun h => WarnUnsupportedType (name (objs w h)))).
  cbn [objs fs environ svc_calls log add_log].
  now rewrite <- app_assoc.
Qed.

(** *** Single files *)

Lemma extract_one (c : client lib) (file : nat) (w : world) :
  ready lib temp_dir w c ->
  extract_contents_from_doc lib [file] temp_dir w
  = loop_body lib c temp_dir [] file (add_log w (InfoTempDirReady temp_dir)).
Proof.
  intros Hready. rewrite (extract_ready lib temp_dir w c [file] Hready).
  cbn [for_files]. unfold bindM, ret.
  destruct (loop_body_returns c [] file (add_log w (InfoTempDirReady temp_dir)))
    as (paths & w' & ->).
  reflexivity.
Qed.

(** X13: A PDF: the bytes from the stream position go to the remote service
    in one request, and the artifact is the text of the recognized lines,
    page after page and line after line, each followed by a newline. *)
Theorem extract_pdf_lines (c : client lib) (h : nat) (w : world)
    (pages : list page) (bs : bytes) :
  let f := objs w h in
  let p := artifact_path lib temp_dir (name f) in
  ready lib temp_dir w c ->
  sanitized_ext lib (name f) = lit ".pdf" ->
  closed (body f) = false ->
  analyze_read lib c (svc_calls w) (drop (pos (body f)) (data (body f))) = Return pages ->
  utf8_encode (pages_text pages) = Return bs ->
  open_w_error lib (fs w) p = None ->
  exists w',
    extract_contents_from_doc lib [h] temp_dir w = (Return [p], w') /\
    fs w' !! p = Some bs /\
    svc_calls w' = S (svc_calls w).
Proof.
  intros f p Hready Hext Hopen Hsvc Henc Hw.
  rewrite (extract_one c h w Hready).
  pose proof (loop_body_pdf c [] h (add_log w (InfoTempDirReady temp_dir)) pages
                Hext Hopen Hsvc Hw) as Hbody.
  cbv zeta in Hbody. rewrite Henc in Hbody. rewrite Hbody.
  eexists. split; [reflexivity |]. split; [apply lookup_insert_eq | reflexivity].
Qed.

(** X14: A PDF whose recognized text cannot be encoded (a lone surrogate): the
    error is caught and no path is returned, but the artifact file has
    been opened and is left behind, empty. *)
Theorem extract_pdf_unencodable_leaves_empty_file (c : client lib) (h : nat)
    (w : world) (pages : list page) (e : exn) :
  let f := objs w h in
  let p := artifact_path lib temp_dir (name f) in
  ready lib temp_dir w c ->
  sanitized_ext lib (name f) = lit ".pdf" ->
  closed (body f) = false ->
  analyze_read lib c (svc_calls w) (drop (pos (body f)) (data (body f))) = Return pages ->
  utf8_encode (pages_text pages) = Raise e ->
  open_w_error lib (fs w) p = None ->
  exists w',
    extract_contents_from_doc lib [h] temp_dir w = (Return [], w') /\
    fs w' !! p = Some [] /\
    last (log w') = Some (ErrProcessingFile (name f) e).
Proof.
  intros f p Hready Hext Hopen Hsvc Henc Hw.
  rewrite (extract_one c h w Hready).
  pose proof (loop_body_pdf c [] h (add_log w (InfoTempDirReady temp_dir)) pages
                Hext Hopen Hsvc Hw) as Hbody.
  cbv zeta in Hbody. rewrite Henc in Hbody. rewrite Hbody.
  eexists. split; [reflexivity |].
  split; [apply lookup_insert_eq | apply last_snoc].
Qed.

(** X15: A TXT file with valid UTF-8: the artifact is a copy of the bytes from
    the stream position on, and the stream is left at its end (it is not
    rewound). *)
Theorem extract_txt_copies_bytes (c : client lib) (h : nat) (w : world) (text : str) :
  let f := objs w h in
  let p := artifact_path lib temp_dir (name f) in
  ready lib temp_dir w c ->
  sanitized_ext lib (name f) = lit ".txt" ->
  closed (body f) = false ->
  utf8_decode (drop (pos (body f)) (data (body f))) = Return text ->
  open_w_error lib (fs w) p = None ->
  exists w',
    extract_contents_from_doc lib [h] temp_dir w = (Return [p], w') /\
    fs w' !! p = Some (drop (pos (body f)) (data (body f))) /\
    objs w' h = consumed f.
Proof.
  intros f p Hready Hext Hopen Hdec Hw.
  rewrite (extract_one c h w Hready).
  pose proof (loop_body_txt_world c [] h (add_log w (InfoTempDirReady temp_dir))
                Hext Hopen) as Hbody.
  cbv zeta in Hbody. cbn [objs fs add_log] in Hbody. fold f in Hbody.
  rewrite Hdec in Hbody. fold p in Hbody. rewrite Hw in Hbody. rewrite Hbody.
  eexists. split; [reflexivity |].
  split; [apply lookup_insert_eq | apply objs_set_obj_same].
Qed.

(** X16: A TXT file whose bytes are not valid UTF-8: the error is caught and
    logged, nothing is written, and the result is empty. *)
Theorem extract_txt_decode_error (c : client lib) (h : nat) (w : world) (e : exn) :
  let f := objs w h in
  ready lib temp_dir w c ->
  sanitized_ext lib (name f) = lit ".txt" ->
  closed (body f) = false ->
  utf8_decode (drop (pos (body f)) (data (body f))) = Raise e ->
  exists w',
    extract_contents_from_doc lib [h] temp_dir w = (Return [], w') /\
    fs w' = fs w /\
    last (log w') = Some (ErrProcessingFile (name f) e).
Proof.
  intros f Hready Hext Hopen Hdec.
  rewrite (extract_one c h w Hready).
  pose proof (loop_body_txt_world c [] h (add_log w (InfoTempDirReady temp_dir))
                Hext Hopen) as Hbody.
  cbv zeta in Hbody. cbn [objs fs add_log] in Hbody. fold f in Hbody.
  rewrite Hdec in Hbody. rewrite Hbody.
  eexists. split; [reflexivity |]. split; [reflexivity | apply last_snoc].
Qed.

(** X17: The same TXT file object twice in a batch: the second pass finds the
    stream at its end, reads nothing, and overwrites the artifact with an
    empty file; the path is returned twice. *)
Theorem extract_same_txt_twice (c : client lib) (h : nat) (w : world) (text : str) :
  let f := objs w h in
  let p := artifact_path lib temp_dir (name f) in
  let content := drop (pos (body f)) (data (body f)) in
  ready lib temp_dir w c ->
  sanitized_ext lib (name f) = lit ".txt" ->
  closed (body f) = false ->
  utf8_decode content = Return text ->
  open_w_error lib (fs w) p = None ->
  open_w_error lib (<[p := content]> (fs w)) p = None ->
  exists w',
    extract_contents_from_doc lib [h; h] temp_dir w = (Return [p; p], w') /\
    fs w' !! p = Some [].
Proof.
  intros f p content Hready Hext Hopen Hdec Hw Hw2.
  rewrite (extract_ready lib temp_dir w c [h; h] Hready).
  cbn [for_files]. unfold bindM at 1.
  pose proof (loop_body_txt_world c [] h (add_log w (InfoTempDirReady temp_dir))
                Hext Hopen) as Hbody.
  cbv zeta in Hbody. cbn [objs fs add_log] in Hbody. fold f in Hbody.
  fold content in Hbody. rewrite Hdec in Hbody. fold p in Hbody.
  rewrite Hw in Hbody. rewrite Hbody. clear Hbody.
  unfold bindM.
  match goal with
  | |- context [loop_body lib c temp_dir ?acc h ?w1] =>
      pose proof (loop_body_txt_world c acc h w1) as Hbody
  end.
  cbv zeta in Hbody. cbn [objs fs add_log set_fs] in Hbody.
  rewrite objs_set_obj_same in Hbody.
  cbn [consumed name body data pos closed] in Hbody. fold f in Hbody.
  rewrite drop_ge in Hbody by lia.
  change (utf8_decode []) with (Return (@nil N)) in Hbody.
  fold p content in Hbody. rewrite Hw2 in Hbody.
  rewrite (Hbody Hext eq_refl).
  eexists. split; [reflexivity |]. apply lookup_insert_eq.
Qed.

End Frame.

(** ** More on [chunk_document] *)

Lemma drop_while_suffix (p : char -> bool) (s : str) :
  exists a, s = a ++ drop_while p s.
Proof.
  induction s as [| c r [a IH]]; [now exists [] |].
  cbn [drop_while]. destruct (p c).
  - exists (c :: a). cbn. now rewrite <- IH.
  - now exists [].
Qed.

Lemma strip_infix (s : str) : infix (strip s) s.
Proof.
  unfold strip, rstrip, lstrip.
  destruct (drop_while_suffix is_space s) as [a Ha].
  destruct (drop_while_suffix is_space (rev (drop_while is_space s))) as [b Hb].
  exists a, (rev b). rewrite Ha at 1. f_equal.
  rewrite <- (rev_involutive (drop_while is_space s)), Hb at 1.
  now rewrite rev_app_distr.
Qed.

Lemma infix_len (a b : str) : infix a b -> (len a <= len b)%Z.
Proof.
  intros (l & r & ->). rewrite !len_app.
  pose proof (len_nonneg l). pose proof (len_nonneg r). lia.
Qed.

Lemma infix_trans (a b c : str) : infix a b -> infix b c -> infix a c.
Proof.
  intros (l & r & ->) (l' & r' & ->). exists (l' ++ l), (r ++ r').
  now rewrite <- !app_assoc.
Qed.

Lemma infix_refl (a : str) : infix a a.
Proof. exists [], []. now rewrite app_nil_r. Qed.

Lemma segment_concat_infix (seg l : list str) :
  segment seg l -> infix (concat seg) (concat l).
Proof.
  intros (a & b & ->). exists (concat a), (concat b). now rewrite !concat_app.
Qed.

Lemma segment_trans (a b c : list str) : segment a b -> segment b c -> segment a c.
Proof.
  intros (l & r & ->) (l' & r' & ->). exists (l' ++ l), (r ++ r').
  now rewrite <- !app_assoc.
Qed.

Lemma drop1_snoc_Forall (P : char -> Prop) (cur : str) (c : char) :
  Forall P (drop 1 cur) -> P c -> Forall P (drop 1 (cur ++ [c])).
Proof.
  intros Hcur Hc. destruct cur as [| x cur']; [constructor |].
  cbn [app]. rewrite !skipn_cons, !drop_0 in *. apply Forall_app. split; auto.
Qed.

Lemma split_keep_tails (sep : char) (s : str) :
  forall cur : str,
    Forall (fun x => x <> sep) (drop 1 cur) ->
    Forall (fun p => Forall (fun x => x <> sep) (drop 1 p))
           (Splitter.split_keep_from sep cur s).
Proof.
  induction s as [| c r IH]; intros cur Hcur; cbn [Splitter.split_keep_from].
  - constructor; [exact Hcur | constructor].
  - destruct (N.eqb_spec c sep) as [-> | Hne].
    + constructor; [exact Hcur |]. apply IH. constructor.
    + apply IH. now apply drop1_snoc_Forall.
Qed.

Lemma Forall_list_filter {A} (P : A -> Prop) (f : A -> bool) (l : list A) :
  Forall P l -> Forall P (List.filter f l).
Proof.
  rewrite !List.Forall_forall. intros H x Hx.
  apply List.filter_In in Hx as [Hx _]. now apply H.
Qed.

Lemma pieces_tails (text : str) (sep : char) :
  Forall (fun p => Forall (fun x => x <> sep) (drop 1 p))
         (Splitter.split_text_with_regex text sep).
Proof.
  unfold Splitter.split_text_with_regex.
  apply Forall_list_filter. apply split_keep_tails. constructor.
Qed.

Lemma pieces_nonempty (text : str) (sep : char) :
  Forall (fun p => p <> []) (Splitter.split_text_with_regex text sep).
Proof.
  unfold Splitter.split_text_with_regex.
  apply List.Forall_forall. intros p Hp. apply List.filter_In in Hp as [_ Hp].
  now destruct p.
Qed.

Lemma in_drop1 (x : char) (t : str) : In x (drop 1 t) -> In x t.
Proof.
  destruct t as [| y t']; [intros [] |].
  rewrite skipn_cons, drop_0. now right.
Qed.

Lemma infix_tail_Forall (P : char -> Prop) (p t : str) :
  infix p t -> Forall P (drop 1 t) -> Forall P (drop 1 p).
Proof.
  intros (l & r & ->) H. destruct l as [| y l'].
  - destruct p as [| x p']; [constructor |].
    cbn [app] in H. rewrite !skipn_cons, !drop_0 in *.
    now apply Forall_app in H as [H _].
  - cbn [app] in H. rewrite skipn_cons, drop_0 in H.
    apply Forall_app in H as [_ H]. apply Forall_app in H as [H _].
    now apply Forall_drop.
Qed.

Section Chunks.

Variable cfg : Splitter.config.
Hypothesis overlap_nonneg : (0 <= Splitter.chunk_overlap cfg)%Z.
Hypothesis size_nonneg : (0 <= Splitter.chunk_size cfg)%Z.

Lemma pop_front_spec (_len : Z) (cd : list str) :
  forall total : Z,
    total = len (concat cd) ->
    exists popped cd' total',
      Splitter.pop_front cfg [] _len cd total = Return (cd', total') /\
      cd = popped ++ cd' /\
      total' = len (concat cd') /\
      ((total' + _len <= Splitter.chunk_size cfg)%Z \/ total' = 0%Z).
Proof.
  induction cd as [| d0 rest IH]; intros total Htotal.
  - cbn [Splitter.pop_front]. rewrite !sep_if_empty.
    change (len (concat (@nil str))) with 0%Z in Htotal. subst total.
    destruct (Z.ltb_spec (Splitter.chunk_overlap cfg) 0); [lia |].
    rewrite andb_false_r. cbn [orb].
    exists [], [], 0%Z. repeat split; auto.
  - cbn [Splitter.pop_front]. rewrite !sep_if_empty.
    destruct ((Splitter.chunk_overlap cfg <? total)%Z
              || (Splitter.chunk_size cfg <? total + _len + 0)%Z && (0 <? total)%Z)
      eqn:Hcond.
    + destruct (IH (total - (len d0 + 0))%Z) as (popped & cd' & total' & Hrun & Hcd & Ht & Hfit).
      { subst total. cbn [concat]. rewrite len_app. lia. }
      exists (d0 :: popped), cd', total'. rewrite Hrun, Hcd. repeat split; auto.
    + apply orb_false_iff in Hcond as [_ Hcond].
      exists [], (d0 :: rest), total. repeat split; auto.
      apply andb_false_iff in Hcond as [H | H].
      * apply Z.ltb_ge in H. left. lia.
      * apply Z.ltb_ge in H. right. pose proof (len_nonneg (concat (d0 :: rest))). lia.
Qed.

Lemma join_docs_merged (all cd : list str) (doc : str) :
  segment cd all ->
  (len (concat cd) <= Splitter.chunk_size cfg)%Z ->
  Splitter.join_docs cd [] = Some doc ->
  merged_from (Splitter.chunk_size cfg) all doc.
Proof.
  intros Hseg Hlen. unfold Splitter.join_docs. rewrite join_empty_separator.
  destruct (strip (concat cd)) as [| c r] eqn:Hs; [discriminate |].
  intros [= <-]. rewrite <- Hs. split; [rewrite Hs; discriminate |]. split.
  - pose proof (infix_len _ _ (strip_infix (concat cd))). lia.
  - exists cd. auto.
Qed.

Lemma merge_step_spec (all : list str) (st : Splitter.merge_state)
    (d : str) (rest : list str) :
  (len d < Splitter.chunk_size cfg)%Z ->
  merging cfg all st (d :: rest) ->
  exists st', Splitter.merge_step cfg [] st d = Return st' /\ merging cfg all st' rest.
Proof.
  intros Hd ((pre & Hall) & Htotal & Hfit & Hdocs).
  unfold Splitter.merge_step. rewrite !sep_if_empty.
  destruct (Z.ltb_spec (Splitter.chunk_size cfg) (Splitter.total st + len d + 0))
    as [Hover | Hok].
  - destruct (Z.ltb_spec 0 (len (Splitter.current_doc st))) as [Hne | He].
    + destruct (pop_front_spec (len d) (Splitter.current_doc st) (Splitter.total st) Htotal)
        as (popped & cd' & total' & Hrun & Hcd & Ht & Hroom).
      rewrite Hrun. cbn [bind fst snd Splitter.docs Splitter.current_doc Splitter.total].
      rewrite sep_if_empty.
      eexists. split; [reflexivity |].
      unfold merging. cbn [Splitter.docs Splitter.current_doc Splitter.total].
      split; [| split; [| split]].
      * exists (pre ++ popped). rewrite Hall, Hcd. now rewrite <- !app_assoc.
      * rewrite concat_app, len_app, Ht. cbn [concat]. rewrite app_nil_r. lia.
      * pose proof (len_nonneg (concat cd')). lia.
      * destruct (Splitter.join_docs (Splitter.current_doc st) []) as [doc |] eqn:Hj;
          [| exact Hdocs].
        apply Forall_app. split; [exact Hdocs |]. constructor; [| constructor].
        eapply join_docs_merged; [| | exact Hj].
        -- exists pre, (d :: rest). exact Hall.
        -- lia.
    + assert (Hnil : Splitter.current_doc st = []).
      { destruct (Splitter.current_doc st); [reflexivity |]. unfold len in He.
        simpl in He. lia. }
      cbn [bind]. rewrite sep_if_empty. eexists. split; [reflexivity |].
      unfold merging. cbn [Splitter.docs Splitter.current_doc Splitter.total].
      rewrite Hnil in *. cbn [app concat] in *.
      change (len (@nil N)) with 0%Z in Htotal.
      split; [| split; [| split]].
      * exists pre. exact Hall.
      * rewrite app_nil_r. lia.
      * lia.
      * exact Hdocs.
  - cbn [bind]. rewrite sep_if_empty. eexists. split; [reflexivity |].
    unfold merging. cbn [Splitter.docs Splitter.current_doc Splitter.total].
    split; [| split; [| split]].
    + exists pre. rewrite Hall. now rewrite <- !app_assoc.
    + rewrite concat_app, len_app, Htotal. cbn [concat]. rewrite app_nil_r. lia.
    + lia.
    + exact Hdocs.
Qed.

Lemma merge_loop_spec (all : list str) (rest : list str) :
  forall st : Splitter.merge_state,
    Forall (fun d => (len d < Splitter.chunk_size cfg)%Z) rest ->
    merging cfg all st rest ->
    exists st', Splitter.merge_loop cfg [] st rest = Return st' /\ merging cfg all st' [].
Proof.
  induction rest as [| d rest IH]; intros st Hall Hinv.
  - exists st. split; [reflexivity | exact Hinv].
  - inversion Hall as [| ? ? Hd Hrest]; subst.
    destruct (merge_step_spec all st d rest Hd Hinv) as (st1 & Hstep & Hinv1).
    destruct (IH st1 Hrest Hinv1) as (st' & Hloop & Hinv').
    exists st'. cbn [Splitter.merge_loop]. rewrite Hstep. cbn [bind]. auto.
Qed.

Lemma merge_splits_spec (all : list str) :
  Forall (fun d => (len d < Splitter.chunk_size cfg)%Z) all ->
  exists docs,
    Splitter.merge_splits cfg [] all = Return docs /\
    Forall (merged_from (Splitter.chunk_size cfg) all) docs.
Proof.
  intros Hall. unfold Splitter.merge_splits.
  destruct (merge_loop_spec all all
              {| Splitter.docs := []; Splitter.current_doc := []; Splitter.total := 0 |}
              Hall) as (st & Hloop & (pre & Hpre) & Htotal & Hfit & Hdocs).
  { unfold merging. cbn. split; [now exists [] |]. repeat split; auto. }
  rewrite Hloop. cbn [bind]. rewrite app_nil_r in Hpre.
  destruct (Splitter.join_docs (Splitter.current_doc st) []) as [doc |] eqn:Hj.
  - eexists. split; [reflexivity |]. apply Forall_app. split; [exact Hdocs |].
    constructor; [| constructor].
    eapply join_docs_merged; [| | exact Hj].
    + exists pre, []. now rewrite app_nil_r.
    + lia.
  - eexists. split; [reflexivity | exact Hdocs].
Qed.

Variable all_seps : list char.
Variable text : str.

Local Abbreviation ok := (chunk_ok (Splitter.chunk_size cfg) all_seps text).

Lemma merged_chunk_ok (pieces good : list str) (d : str) :
  infix (concat pieces) text ->
  segment good pieces ->
  merged_from (Splitter.chunk_size cfg) good d ->
  ok d.
Proof.
  intros Htext Hgood (Hne & Hlen & seg & Hseg & ->).
  split; [exact Hne |]. split; [| now left].
  eapply infix_trans; [apply strip_infix |].
  eapply infix_trans; [| exact Htext].
  apply segment_concat_infix. eapply segment_trans; eassumption.
Qed.

Lemma element_infix_concat (l : list str) (x : str) :
  In x l -> infix x (concat l).
Proof.
  intros Hin. apply in_split in Hin as (a & b & ->).
  exists (concat a), (concat b). rewrite concat_app. cbn [concat]. reflexivity.
Qed.

(** The loop over the pieces of one level. *)
Lemma split_loop_spec (deeper : option (str -> result (list str)))
    (pieces : list str) :
  infix (concat pieces) text ->
  Forall (fun p => p <> []) pieces ->
  (match deeper with
   | Some rec =>
       forall s, In s pieces ->
         exists chunks, rec s = Return chunks /\ Forall ok chunks
   | None =>
       forall s, In s pieces -> Forall (fun x => ~ In x all_seps) (drop 1 s)
   end) ->
  forall (rest final good : list str),
    (exists pre, pieces = pre ++ good ++ rest) ->
    Forall ok final ->
    Forall (fun d => (len d < Splitter.chunk_size cfg)%Z) good ->
    exists chunks,
      Splitter.split_loop cfg deeper final good rest = Return chunks /\
      Forall ok chunks.
Proof.
  intros Htext Hne Hdeeper.
  assert (Hflush : forall final good,
            segment good pieces ->
            Forall ok final ->
            Forall (fun d => (len d < Splitter.chunk_size cfg)%Z) good ->
            exists final1,
              match good with
              | [] => Return final
              | _ => let! merged := Splitter.merge_splits cfg [] good in
                     Return (final ++ merged)
              end = Return final1 /\ Forall ok final1).
  { intros final good Hseg Hfinal Hgood.
    destruct good as [| g good']; [eauto |].
    destruct (merge_splits_spec (g :: good') Hgood) as (docs & -> & Hdocs).
    cbn [bind]. eexists. split; [reflexivity |].
    apply Forall_app. split; [exact Hfinal |].
    eapply Forall_impl; [exact Hdocs |]. intros d Hd.
    eapply merged_chunk_ok; eassumption. }
  induction rest as [| s rest IH]; intros final good (pre & Hpre) Hfinal Hgood.
  - cbn [Splitter.split_loop].
    apply Hflush; auto. exists pre, []. exact Hpre.
  - cbn [Splitter.split_loop].
    assert (Hs : In s pieces).
    { rewrite Hpre. apply in_or_app. right. apply in_or_app. right. now left. }
    destruct (Z.ltb_spec (len s) (Splitter.chunk_size cfg)) as [Hlt | Hge].
    + apply IH; auto.
      * exists pre. rewrite Hpre. now rewrite <- !app_assoc.
      * apply Forall_app. split; [exact Hgood |]. constructor; [exact Hlt | constructor].
    + destruct (Hflush final good) as (final1 & -> & Hfinal1); auto.
      { exists pre, (s :: rest). exact Hpre. }
      cbn [bind].
      assert (Hdeep : exists final2,
                match deeper with
                | Some rec => let! other_info := rec s in Return (final1 ++ other_info)
                | None => Return (final1 ++ [s])
                end = Return final2 /\ Forall ok final2).
      { destruct deeper as [rec |].
        - destruct (Hdeeper s Hs) as (chunks & -> & Hchunks). cbn [bind].
          eexists. split; [reflexivity |]. apply Forall_app. auto.
        - eexists. split; [reflexivity |]. apply Forall_app. split; [exact Hfinal1 |].
          constructor; [| constructor]. split; [| split].
          + rewrite List.Forall_forall in Hne. now apply Hne.
          + eapply infix_trans; [apply element_infix_concat; exact Hs | exact Htext].
          + right. now apply Hdeeper. }
      destruct Hdeep as (final2 & -> & Hfinal2). cbn [bind].
      apply IH; auto.
      exists (pre ++ good ++ [s]). rewrite Hpre. cbn [app]. now rewrite <- !app_assoc.
Qed.

Lemma tails_of_pieces (prev : list char) (sep : char) (t s : str) :
  Forall (fun x => ~ In x prev) (drop 1 t) ->
  In s (Splitter.split_text_with_regex t sep) ->
  Forall (fun x => ~ In x (prev ++ [sep])) (drop 1 s).
Proof.
  intros Ht Hs.
  pose proof (pieces_tails t sep) as Hsep. rewrite List.Forall_forall in Hsep.
  specialize (Hsep s Hs).
  assert (Hprev : Forall (fun x => ~ In x prev) (drop 1 s)).
  { eapply infix_tail_Forall; [| exact Ht].
    pose proof (element_infix_concat _ _ Hs) as Hi.
    now rewrite split_text_with_regex_concat in Hi. }
  rewrite List.Forall_forall in *. intros x Hx Hin.
  apply in_app_or in Hin as [Hin | [Heq | []]].
  - now apply (Hprev x).
  - now apply (Hsep x).
Qed.

Lemma split_text_rec_spec (seps : list char) :
  forall (prev : list char) (t : str),
    seps <> [] ->
    all_seps = prev ++ seps ->
    infix t text ->
    Forall (fun x => ~ In x prev) (drop 1 t) ->
    exists chunks,
      Splitter.split_text_rec cfg seps t = Return chunks /\ Forall ok chunks.
Proof.
  induction seps as [| sep rest IH]; intros prev t Hne Hall Ht Htail; [congruence |].
  cbn [Splitter.split_text_rec].
  assert (Hpieces : infix (concat (Splitter.split_text_with_regex t sep)) text).
  { now rewrite split_text_with_regex_concat. }
  destruct rest as [| sep2 rest'].
  - apply (split_loop_spec None (Splitter.split_text_with_regex t sep)); auto.
    + apply pieces_nonempty.
    + intros s Hs. rewrite Hall. now apply (tails_of_pieces prev sep t).
    + now exists [].
  - destruct (contains_char sep t) eqn:Hc.
    + apply (split_loop_spec (Some (Splitter.split_text_rec cfg (sep2 :: rest')))
               (Splitter.split_text_with_regex t sep)); auto.
      * apply pieces_nonempty.
      * intros s Hs. apply (IH (prev ++ [sep]) s).
        -- discriminate.
        -- rewrite Hall. now rewrite <- app_assoc.
        -- eapply infix_trans; [| exact Hpieces]. now apply element_infix_concat.
        -- now apply (tails_of_pieces prev sep t).
      * now exists [].
    + apply (IH (prev ++ [sep]) t).
      * discriminate.
      * rewrite Hall. now rewrite <- app_assoc.
      * exact Ht.
      * assert (Hno : ~ In sep t).
        { intros Hin. apply contains_char_In in Hin. congruence. }
        rewrite List.Forall_forall in *. intros x Hx Hin.
        apply in_app_or in Hin as [Hin | [Heq | []]].
        -- now apply (Htail x).
        -- apply Hno. rewrite Heq. now apply in_drop1.
Qed.

End Chunks.

(** The chunks of any text, for [0 <= chunk_overlap <= chunk_size]. *)
Lemma chunk_document_chunks (text : str) (chunk_size chunk_overlap : Z) :
  (0 <= chunk_overlap)%Z ->
  (chunk_overlap <= chunk_size)%Z ->
  exists chunks,
    chunk_document text chunk_size chunk_overlap = Return chunks /\
    Forall (chunk_ok chunk_size separators_of_chunk_document text) chunks.
Proof.
  intros H0 Hle. unfold chunk_document, Splitter.init.
  destruct (Z.ltb_spec chunk_size chunk_overlap) as [Hlt | _]; [lia |].
  cbn [bind]. unfold Splitter.split_text. cbn [Splitter.separators].
  apply (split_text_rec_spec
           {| Splitter.chunk_size := chunk_size; Splitter.chunk_overlap := chunk_overlap;
              Splitter.separators := [LF; SPACE; QUESTION; DOT; BANG] |}
           H0 ltac:(cbn; lia) separators_of_chunk_document text
           [LF; SPACE; QUESTION; DOT; BANG] [] text).
  - discriminate.
  - reflexivity.
  - apply infix_refl.
  - apply Forall_forall. intros x _ [].
Qed.

(** X18: For [0 <= chunk_overlap <= chunk_size] the call never raises, and no
    chunk is empty. *)
Theorem chunk_document_returns_nonempty_chunks
    (text : str) (chunk_size chunk_overlap : Z) :
  (0 <= chunk_overlap)%Z ->
  (chunk_overlap <= chunk_size)%Z ->
  exists chunks,
    chunk_document text chunk_size chunk_overlap = Return chunks /\
    Forall (fun c => c <> []) chunks.
Proof.
  intros H0 Hle.
  destruct (chunk_document_chunks text chunk_size chunk_overlap H0 Hle)
    as (chunks & Hrun & Hok).
  exists chunks. split; [exact Hrun |].
  eapply Forall_impl; [exact Hok |]. now intros c (Hne & _).
Qed.

(** X19: No character is invented or reordered: every chunk is a contiguous
    part of the text. *)
Theorem chunk_document_chunks_are_parts
    (text : str) (chunk_size chunk_overlap : Z) (chunks : list str) :
  (0 <= chunk_overlap)%Z ->
  (chunk_overlap <= chunk_size)%Z ->
  chunk_document text chunk_size chunk_overlap = Return chunks ->
  Forall (fun c => infix c text) chunks.
Proof.
  intros H0 Hle Hrun.
  destruct (chunk_document_chunks text chunk_size chunk_overlap H0 Hle)
    as (chunks' & Hrun' & Hok).
  assert (chunks' = chunks) as -> by congruence.
  eapply Forall_impl; [exact Hok |]. now intros c (_ & Hin & _).
Qed.

(** X20: A chunk is longer than [chunk_size] only when it cannot be split:
    it has no separator after its first character. *)
Theorem chunk_document_size_bound
    (text : str) (chunk_size chunk_overlap : Z) (chunks : list str) :
  (0 <= chunk_overlap)%Z ->
  (chunk_overlap <= chunk_size)%Z ->
  chunk_document text chunk_size chunk_overlap = Return chunks ->
  Forall (fun c => (len c <= chunk_size)%Z \/
                   Forall (fun x => ~ In x separators_of_chunk_document) (drop 1 c))
         chunks.
Proof.
  intros H0 Hle Hrun.
  destruct (chunk_document_chunks text chunk_size chunk_overlap H0 Hle)
    as (chunks' & Hrun' & Hok).
  assert (chunks' = chunks) as -> by congruence.
  eapply Forall_impl; [exact Hok |]. now intros c (_ & _ & Hb).
Qed.

Lemma split_keep_no_sep (sep : char) (s : str) :
  forall cur : str, ~ In sep s -> Splitter.split_keep_from sep cur s = [cur ++ s].
Proof.
  induction s as [| c r IH]; intros cur Hno; cbn [Splitter.split_keep_from].
  - now rewrite app_nil_r.
  - destruct (N.eqb_spec c sep) as [-> | Hne]; [exfalso; apply Hno; now left |].
    rewrite IH by (intros Hin; apply Hno; now right).
    now rewrite <- app_assoc.
Qed.

Lemma contains_char_false (c : char) (s : str) :
  ~ In c s -> contains_char c s = false.
Proof.
  intros H. destruct (contains_char c s) eqn:E; [| reflexivity].
  apply contains_char_In in E. contradiction.
Qed.

(** X21: A text without any separator that does not fit in one chunk comes
    back whole, as a single oversized chunk. *)
Theorem chunk_document_unsplittable
    (text : str) (chunk_size chunk_overlap : Z) :
  (chunk_overlap <= chunk_size)%Z ->
  (chunk_size <= len text)%Z ->
  text <> [] ->
  Forall (fun x => ~ In x separators_of_chunk_document) text ->
  chunk_document text chunk_size chunk_overlap = Return [text].
Proof.
  intros Hle Hbig Hne Hfree.
  assert (Hno : forall sep, In sep separators_of_chunk_document -> ~ In sep text).
  { intros sep Hsep Hin. rewrite List.Forall_forall in Hfree. now apply (Hfree sep). }
  unfold chunk_document, Splitter.init.
  destruct (Z.ltb_spec chunk_size chunk_overlap) as [Hlt | _]; [lia |].
  cbn [bind]. unfold Splitter.split_text. cbn [Splitter.separators Splitter.split_text_rec].
  rewrite !contains_char_false by (apply Hno; cbn; auto 10).
  unfold Splitter.split_text_with_regex.
  rewrite split_keep_no_sep by (apply Hno; cbn; auto 10).
  cbn [app]. destruct text as [| c r]; [congruence |].
  cbn [List.filter Splitter.nonempty Splitter.split_loop Splitter.chunk_size].
  destruct (Z.ltb_spec (len (c :: r)) chunk_size) as [Hlt | _]; [lia |].
  reflexivity.
Qed.

(** ** [conversation_history_prompt] and [get_conversation_summary] *)

Section ConversationProperties.

Import Conversation.

Lemma template_pieces :
  parse_format (InText []) template_summary
  = Ok [Text prompt_head; Field (lit "history"); Text prompt_middle;
        Field (lit "question"); Text prompt_tail].
Proof. vm_compute. reflexivity. Qed.

Lemma strict_format_summary (history question : str) :
  strict_format template_summary
    [(lit "history", history); (lit "question", question)]
  = Ok (prompt_head ++ history ++ prompt_middle ++ question ++ prompt_tail).
Proof.
  unfold strict_format. rewrite template_pieces.
  cbn [and_then substitute lookup_kwarg List.filter fst field_names flat_map
       app in_list existsb].
  decide_lit. cbn [and_then orb negb]. now rewrite app_nil_r.
Qed.

Lemma prompt_built (history question : str) :
  conversation_history_prompt history question
  = Ok (prompt_head ++ history ++ prompt_middle ++ question ++ prompt_tail).
Proof.
  unfold conversation_history_prompt, PromptTemplate, format.
  change (List.map (fun v => (v, lit "foo")) [lit "history"; lit "question"])
    with [(lit "history", lit "foo"); (lit "question", lit "foo")].
  rewrite strict_format_summary. cbn [and_then template].
  apply strict_format_summary.
Qed.

(** X22: The prompt is always built, whatever the two texts contain (braces
    included): the fixed text with the history and the question put in
    unchanged. *)
Theorem conversation_history_prompt_verbatim (history question : str) :
  conversation_history_prompt history question
  = Ok (prompt_head ++ history ++ prompt_middle ++ question ++ prompt_tail).
Proof. exact (prompt_built history question). Qed.

Lemma unbordered_no_border (m x l l' : str) :
  unbordered m = true ->
  m = x ++ l -> m = l ++ l' -> x <> [] -> l <> [] -> False.
Proof.
  intros Hu Hx Hl Hxne Hlne. unfold unbordered in Hu.
  rewrite forallb_forall in Hu.
  assert (Hlen : length m = length x + length l) by (rewrite Hx at 1; apply length_app).
  assert (Hxl : 0 < length x) by (destruct x; [congruence | simpl; lia]).
  assert (Hll : 0 < length l) by (destruct l; [congruence | simpl; lia]).
  specialize (Hu (length l)).
  rewrite in_seq in Hu. specialize (Hu ltac:(lia)).
  apply negb_true_iff in Hu. unfold str_eqb in Hu.
  apply bool_decide_eq_false in Hu. apply Hu.
  rewrite Hl at 1. rewrite take_app_length.
  replace (length m - length l) with (length x) by lia.
  rewrite Hx. now rewrite drop_app_length.
Qed.

(** An unbordered marker that occurs in neither left part cuts a text in
    one way only. *)
Lemma marker_cut_left (m h1 h2 x r1 r2 : str) :
  unbordered m = true ->
  ~ infix m h1 ->
  h1 = h2 ++ x ->
  m ++ r2 = x ++ m ++ r1 ->
  x = [].
Proof.
  intros Hu Hh1 Hh Heq.
  destruct x as [| c x]; [reflexivity |]. exfalso.
  apply app_eq_app in Heq as [l [[Hm Hr] | [Hx Hr]]].
  - (* m = (c :: x) ++ l *)
    apply app_eq_app in Hr as [l' [[Hm' Hr'] | [Hl Hr']]].
    + destruct l as [| c' l].
      * rewrite app_nil_r in Hm. subst m. apply Hh1. exists h2, [].
        now rewrite app_nil_r.
      * eapply (unbordered_no_border m (c :: x) (c' :: l) l'); eauto; discriminate.
    + subst l. apply (f_equal (@length N)) in Hm.
      rewrite !length_app in Hm. simpl in Hm. lia.
  - apply Hh1. exists h2, l. rewrite Hh, Hx. reflexivity.
Qed.

Lemma marker_cut (m h1 h2 r1 r2 : str) :
  unbordered m = true ->
  ~ infix m h1 -> ~ infix m h2 ->
  h1 ++ m ++ r1 = h2 ++ m ++ r2 ->
  h1 = h2 /\ r1 = r2.
Proof.
  intros Hu Hh1 Hh2 Heq.
  apply app_eq_app in Heq as [x [[Hh Hr] | [Hh Hr]]].
  - assert (x = []) as -> by exact (marker_cut_left m h1 h2 x r1 r2 Hu Hh1 Hh Hr).
    rewrite app_nil_r in Hh. split; [exact Hh |].
    simpl in Hr. now apply app_inv_head in Hr.
  - assert (x = []) as -> by exact (marker_cut_left m h2 h1 x r2 r1 Hu Hh2 Hh Hr).
    rewrite app_nil_r in Hh. split; [now symmetry |].
    simpl in Hr. now apply app_inv_head in Hr.
Qed.

Lemma Ok_inj {A} (a b : A) : Ok a = Ok b -> a = b.
Proof. now intros [= ->]. Qed.

Lemma prompt_middle_unbordered : unbordered prompt_middle = true.
Proof. vm_compute. reflexivity. Qed.

(** X23: When neither history contains the text that closes the history block
    and opens the question, the prompt determines the history and the
    question. *)
Theorem conversation_history_prompt_unambiguous (h1 q1 h2 q2 : str) :
  ~ infix prompt_middle h1 ->
  ~ infix prompt_middle h2 ->
  conversation_history_prompt h1 q1 = conversation_history_prompt h2 q2 ->
  h1 = h2 /\ q1 = q2.
Proof.
  intros Hh1 Hh2. rewrite !prompt_built.
  intros Heq. apply Ok_inj in Heq. apply app_inv_head in Heq.
  apply (marker_cut _ _ _ _ _ prompt_middle_unbordered Hh1 Hh2) in Heq as [-> Hq].
  split; [reflexivity |]. now apply app_inv_tail in Hq.
Qed.

(** Without that condition the block markers protect nothing: a history
    that contains them passes for another history and question. *)
Example conversation_history_prompt_forged :
  conversation_history_prompt (lit "a" ++ prompt_middle ++ lit "b") (lit "c")
  = conversation_history_prompt (lit "a") (lit "b" ++ prompt_middle ++ lit "c").
Proof.
  rewrite !prompt_built.
  rewrite <- !app_assoc. reflexivity.
Qed.

(** X24: One call makes one request, whatever comes of it: to the engine
    ["Voicetask"], at temperature 0.5, with the fixed system message and
    the prompt built from the history and the question as the user
    message.  Nothing is caught: an exception of the remote call is the
    exception of the call.  The answer is read from the first choice
    alone: its content is the result, [KeyError] if it has none,
    [IndexError] if there is no choice. *)
Theorem get_conversation_summary_one_request
    (create : list chat_request -> chat_request -> result chat_response)
    (history question : str) (sent : list chat_request) :
  let user_message :=
    {| role := lit "user";
       content := prompt_head ++ history ++ prompt_middle ++ question ++ prompt_tail |} in
  let request :=
    {| engine := lit "Voicetask";
       messages := [ {| role := lit "system";
                        content := lit "You are a helpful assistant." |};
                     user_message ];
       temperature_tenths := 5 |} in
  let answer := fst (get_conversation_summary create history question sent) in
  snd (get_conversation_summary create history question sent) = sent ++ [request] /\
  (forall e, create sent request = Raise e -> answer = Err (Builtin e)) /\
  (forall response choice others text,
     create sent request = Return response ->
     choices response = choice :: others ->
     message choice !! lit "content" = Some text ->
     answer = Ok text) /\
  (forall response choice others,
     create sent request = Return response ->
     choices response = choice :: others ->
     message choice !! lit "content" = None ->
     answer = Err (KeyError (lit "content"))) /\
  (forall response,
     create sent request = Return response ->
     choices response = [] ->
     answer = Err (Builtin IndexError)).
Proof.
  intros user_message request answer. subst answer.
  unfold get_conversation_summary. rewrite prompt_built.
  change (request_for (prompt_head ++ history ++ prompt_middle ++ question ++ prompt_tail))
    with request.
  cbn [fst snd]. split; [reflexivity |].
  split; [intros e -> ; reflexivity |].
  split; [intros response choice others text -> -> ->; reflexivity |].
  split; [intros response choice others -> -> ->; reflexivity |].
  intros response -> ->. reflexivity.
Qed.

End ConversationProperties.

(** ** The further properties on the sample installations *)

Lemma pair_eq {A B} (p : A * B) (a : A) : fst p = a -> p = (a, snd p).
Proof. intros <-. now destruct p. Qed.

Lemma scan_ready : ready office_lib out_dir scan_world tt.
Proof.
  exists (lit "https://di.example"), (lit "secret").
  split; [vm_compute; reflexivity |]. split; [discriminate |].
  split; [vm_compute; reflexivity |]. split; [discriminate |].
  split; reflexivity.
Qed.

Lemma scan_later_ready : ready office_lib out_dir scan_world_later tt.
Proof.
  exists (lit "https://di.example"), (lit "secret").
  split; [vm_compute; reflexivity |]. split; [discriminate |].
  split; [vm_compute; reflexivity |]. split; [discriminate |].
  split; reflexivity.
Qed.

Lemma sample_count_run :
  file_check_num sample_lib 0 sample_world
  = (Return 3%Z, snd (file_check_num sample_lib 0 sample_world)).
Proof. apply pair_eq. vm_compute. reflexivity. Qed.

Lemma file_check_num_success_rewinds_witness :
  file_check_num sample_lib 0 sample_world
  = (Return 3%Z, snd (file_check_num sample_lib 0 sample_world)) /\
  (0 <= 3)%Z /\
  pos (body (objs (snd (file_check_num sample_lib 0 sample_world)) 0)) = 0.
Proof.
  split; [exact sample_count_run |]. split; [lia |].
  apply (file_check_num_success_rewinds sample_lib 0 sample_world _ 3%Z
           sample_count_run).
  lia.
Defined.

Lemma file_check_num_result_range_witness :
  In DOT (name (objs sample_world 1)) /\
  exists (z : Z) (w' : world),
    file_check_num sample_lib 1 sample_world = (Return z, w') /\ (-1 <= z)%Z.
Proof.
  assert (H : In DOT (name (objs sample_world 1)))
    by (apply contains_char_In; vm_compute; reflexivity).
  split; [exact H |].
  apply (file_check_num_result_range sample_lib 1 sample_world). exact H.
Defined.

Lemma file_check_num_rejected_name_witness :
  is_ascii (name (objs sample_world 5)) = true /\
  In DOT (name (objs sample_world 5)) /\
  allowed_files (name (objs sample_world 5)) = Return false /\
  exists e,
    extension_of (name (objs sample_world 5)) = Return e /\
    file_check_num sample_lib 5 sample_world
    = (Return (-1)%Z, add_log sample_world (ErrUnsupportedExtension e)).
Proof.
  assert (H : In DOT (name (objs sample_world 5)))
    by (apply contains_char_In; vm_compute; reflexivity).
  split; [reflexivity |]. split; [exact H |]. split; [reflexivity |].
  apply (file_check_num_rejected_name sample_lib 5 sample_world eq_refl H). reflexivity.
Defined.

Lemma file_check_num_accepted_name_witness :
  allowed_files (name (objs sample_world 0)) = Return true /\
  exists (z : Z) (w' : world),
    file_check_num sample_lib 0 sample_world = (Return z, w') /\
    (((0 <= z)%Z /\ log w' = log sample_world) \/
     (z = (-1)%Z /\
      exists e, log w' = log sample_world
                         ++ [ErrCheckingFile (name (objs sample_world 0)) e])).
Proof.
  split; [reflexivity |].
  apply (file_check_num_accepted_name sample_lib 0 sample_world). reflexivity.
Defined.

Lemma file_check_num_twice_witness :
  pos (body (objs sample_world 0)) = 0 /\
  file_check_num sample_lib 0 sample_world
  = (Return 3%Z, snd (file_check_num sample_lib 0 sample_world)) /\
  (0 <= 3)%Z /\
  fst (file_check_num sample_lib 0 (snd (file_check_num sample_lib 0 sample_world)))
  = Return 3%Z.
Proof.
  split; [reflexivity |]. split; [exact sample_count_run |]. split; [lia |].
  apply (file_check_num_twice sample_lib 0 sample_world _ 3%Z eq_refl sample_count_run).
  lia.
Defined.

Lemma file_check_num_pages_and_slides_witness :
  closed (body (objs scan_world 0)) = false /\
  closed (body (objs scan_world 2)) = false /\
  fst (file_check_num office_lib 0 scan_world) = Return 4%Z /\
  pos (body (objs (snd (file_check_num office_lib 0 scan_world)) 0)) = 0 /\
  fst (file_check_num office_lib 2 scan_world) = Return 2%Z.
Proof.
  split; [reflexivity |]. split; [reflexivity |].
  destruct (file_check_num_pages_and_slides office_lib 0 scan_world eq_refl)
    as [_ Hpdf].
  destruct (Hpdf eq_refl 4 eq_refl) as [Hcount Hpos].
  destruct (file_check_num_pages_and_slides office_lib 2 scan_world eq_refl)
    as [Hpptx _].
  split; [exact Hcount |]. split; [exact Hpos |].
  exact (Hpptx eq_refl deck_A_B _ eq_refl).
Defined.

Lemma sample_batch_run :
  extract_contents_from_doc sample_lib [0; 5; 1; 2] out_dir sample_world
  = (Return [lit "tmp/notes_extracted.txt"; lit "tmp/deck_extracted.txt"],
     snd (extract_contents_from_doc sample_lib [0; 5; 1; 2] out_dir sample_world)).
Proof. apply pair_eq. vm_compute. reflexivity. Qed.

Lemma extract_returned_paths_exist_witness :
  extract_contents_from_doc sample_lib [0; 5; 1; 2] out_dir sample_world
  = (Return [lit "tmp/notes_extracted.txt"; lit "tmp/deck_extracted.txt"],
     snd (extract_contents_from_doc sample_lib [0; 5; 1; 2] out_dir sample_world)) /\
  Forall
    (fun p =>
       is_Some (fs (snd (extract_contents_from_doc sample_lib [0; 5; 1; 2]
                           out_dir sample_world)) !! p) /\
       In p (List.map (fun h => artifact_path sample_lib out_dir
                                  (name (objs sample_world h))) [0; 5; 1; 2]))
    [lit "tmp/notes_extracted.txt"; lit "tmp/deck_extracted.txt"].
Proof.
  split; [exact sample_batch_run |].
  exact (extract_returned_paths_exist sample_lib out_dir [0; 5; 1; 2] sample_world
           _ _ sample_batch_run).
Defined.

Lemma extract_unsupported_batch_witness :
  ready sample_lib out_dir sample_world tt /\
  Forall (fun h => supported_ext (sanitized_ext sample_lib (name (objs sample_world h)))
                   = false) [5; 3] /\
  extract_contents_from_doc sample_lib [5; 3] out_dir sample_world
  = (Return [],
     {| objs := objs sample_world; fs := fs sample_world;
        environ := environ sample_world; svc_calls := svc_calls sample_world;
        log := log sample_world ++ InfoTempDirReady out_dir
                 :: List.map (fun h => WarnUnsupportedType (name (objs sample_world h)))
                      [5; 3] |}).
Proof.
  assert (H : Forall (fun h => supported_ext
                                 (sanitized_ext sample_lib (name (objs sample_world h)))
                               = false) [5; 3])
    by (repeat constructor).
  split; [exact sample_ready |]. split; [exact H |].
  exact (extract_unsupported_batch sample_lib out_dir [5; 3] sample_world tt
           sample_ready H).
Defined.

Lemma extract_pdf_lines_witness :
  ready office_lib out_dir scan_world tt /\
  sanitized_ext office_lib (name (objs scan_world 0)) = lit ".pdf" /\
  closed (body (objs scan_world 0)) = false /\
  analyze_read office_lib tt (svc_calls scan_world)
    (drop (pos (body (objs scan_world 0))) (data (body (objs scan_world 0))))
  = Return sample_pages /\
  utf8_encode (pages_text sample_pages)
  = Return (ascii_bytes (lit "Hello" ++ [LF] ++ lit "World" ++ [LF] ++ lit "Bye" ++ [LF])) /\
  open_w_error office_lib (fs scan_world)
    (artifact_path office_lib out_dir (name (objs scan_world 0))) = None /\
  exists w',
    extract_contents_from_doc office_lib [0] out_dir scan_world
    = (Return [artifact_path office_lib out_dir (name (objs scan_world 0))], w') /\
    fs w' !! artifact_path office_lib out_dir (name (objs scan_world 0))
    = Some (ascii_bytes (lit "Hello" ++ [LF] ++ lit "World" ++ [LF] ++ lit "Bye" ++ [LF])) /\
    svc_calls w' = S (svc_calls scan_world).
Proof.
  split; [exact scan_ready |].
  split; [reflexivity |]. split; [reflexivity |]. split; [reflexivity |].
  split; [reflexivity |]. split; [reflexivity |].
  exact (extract_pdf_lines office_lib out_dir tt 0 scan_world sample_pages _
           scan_ready eq_refl eq_refl eq_refl eq_refl eq_refl).
Defined.

Lemma extract_pdf_unencodable_leaves_empty_file_witness :
  ready office_lib out_dir scan_world_later tt /\
  sanitized_ext office_lib (name (objs scan_world_later 0)) = lit ".pdf" /\
  closed (body (objs scan_world_later 0)) = false /\
  analyze_read office_lib tt (svc_calls scan_world_later)
    (drop (pos (body (objs scan_world_later 0))) (data (body (objs scan_world_later 0))))
  = Return surrogate_pages /\
  utf8_encode (pages_text surrogate_pages) = Raise UnicodeEncodeError /\
  open_w_error office_lib (fs scan_world_later)
    (artifact_path office_lib out_dir (name (objs scan_world_later 0))) = None /\
  exists w',
    extract_contents_from_doc office_lib [0] out_dir scan_world_later = (Return [], w') /\
    fs w' !! artifact_path office_lib out_dir (name (objs scan_world_later 0)) = Some [] /\
    last (log w')
    = Some (ErrProcessingFile (name (objs scan_world_later 0)) UnicodeEncodeError).
Proof.
  split; [exact scan_later_ready |].
  split; [reflexivity |]. split; [reflexivity |]. split; [reflexivity |].
  split; [reflexivity |]. split; [reflexivity |].
  exact (extract_pdf_unencodable_leaves_empty_file office_lib out_dir tt 0
           scan_world_later surrogate_pages UnicodeEncodeError
           scan_later_ready eq_refl eq_refl eq_refl eq_refl eq_refl).
Defined.

Lemma extract_txt_copies_bytes_witness :
  ready sample_lib out_dir sample_world tt /\
  sanitized_ext sample_lib (name (objs sample_world 4)) = lit ".txt" /\
  closed (body (objs sample_world 4)) = false /\
  utf8_decode (drop (pos (body (objs sample_world 4))) (data (body (objs sample_world 4))))
  = Return (lit "a" ++ [LF]) /\
  open_w_error sample_lib (fs sample_world)
    (artifact_path sample_lib out_dir (name (objs sample_world 4))) = None /\
  exists w',
    extract_contents_from_doc sample_lib [4] out_dir sample_world
    = (Return [artifact_path sample_lib out_dir (name (objs sample_world 4))], w') /\
    fs w' !! artifact_path sample_lib out_dir (name (objs sample_world 4))
    = Some (drop (pos (body (objs sample_world 4))) (data (body (objs sample_world 4)))) /\
    objs w' 4 = consumed (objs sample_world 4).
Proof.
  split; [exact sample_ready |].
  split; [reflexivity |]. split; [reflexivity |]. split; [reflexivity |].
  split; [reflexivity |].
  exact (extract_txt_copies_bytes sample_lib out_dir tt 4 sample_world (lit "a" ++ [LF])
           sample_ready eq_refl eq_refl eq_refl eq_refl).
Defined.

Lemma extract_txt_decode_error_witness :
  ready sample_lib out_dir sample_world tt /\
  sanitized_ext sample_lib (name (objs sample_world 1)) = lit ".txt" /\
  closed (body (objs sample_world 1)) = false /\
  utf8_decode (drop (pos (body (objs sample_world 1))) (data (body (objs sample_world 1))))
  = Raise UnicodeDecodeError /\
  exists w',
    extract_contents_from_doc sample_lib [1] out_dir sample_world = (Return [], w') /\
    fs w' = fs sample_world /\
    last (log w')
    = Some (ErrProcessingFile (name (objs sample_world 1)) UnicodeDecodeError).
Proof.
  split; [exact sample_ready |].
  split; [reflexivity |]. split; [reflexivity |]. split; [reflexivity |].
  exact (extract_txt_decode_error sample_lib out_dir tt 1 sample_world UnicodeDecodeError
           sample_ready eq_refl eq_refl eq_refl).
Defined.

Lemma extract_same_txt_twice_witness :
  ready sample_lib out_dir sample_world tt /\
  sanitized_ext sample_lib (name (objs sample_world 0)) = lit ".txt" /\
  closed (body (objs sample_world 0)) = false /\
  utf8_decode (drop (pos (body (objs sample_world 0))) (data (body (objs sample_world 0))))
  = Return three_lines /\
  exists w',
    extract_contents_from_doc sample_lib [0; 0] out_dir sample_world
    = (Return [artifact_path sample_lib out_dir (name (objs sample_world 0));
               artifact_path sample_lib out_dir (name (objs sample_world 0))], w') /\
    fs w' !! artifact_path sample_lib out_dir (name (objs sample_world 0)) = Some [].
Proof.
  split; [exact sample_ready |].
  split; [reflexivity |]. split; [reflexivity |]. split; [reflexivity |].
  exact (extract_same_txt_twice sample_lib out_dir tt 0 sample_world three_lines
           sample_ready eq_refl eq_refl eq_refl eq_refl eq_refl).
Defined.

Lemma short_text_has_no_marker (h : str) :
  (len h < len Conversation.prompt_middle)%Z -> ~ infix Conversation.prompt_middle h.
Proof.
  intros Hlen Hin. apply infix_len in Hin. lia.
Qed.

Lemma conversation_history_prompt_unambiguous_witness :
  ~ infix Conversation.prompt_middle (lit "hello") /\
  Conversation.conversation_history_prompt (lit "hello") (lit "and then?")
  = Conversation.conversation_history_prompt (lit "hello") (lit "and then?") /\
  lit "hello" = lit "hello" /\ lit "and then?" = lit "and then?".
Proof.
  assert (H : ~ infix Conversation.prompt_middle (lit "hello"))
    by (apply short_text_has_no_marker; vm_compute; reflexivity).
  split; [exact H |]. split; [reflexivity |].
  exact (conversation_history_prompt_unambiguous (lit "hello") (lit "and then?")
           (lit "hello") (lit "and then?") H H eq_refl).
Defined.

Lemma chunk_sample_run :
  chunk_document (lit "aaa bbb ccc") 5 0 = Return [lit "aaa"; lit "bbb"; lit "ccc"].
Proof. vm_compute. reflexivity. Qed.

Lemma chunk_document_returns_nonempty_chunks_witness :
  (0 <= 0)%Z /\ (0 <= 5)%Z /\
  exists chunks,
    chunk_document (lit "aaa bbb ccc") 5 0 = Return chunks /\
    Forall (fun c => c <> []) chunks.
Proof.
  split; [lia |]. split; [lia |].
  apply (chunk_document_returns_nonempty_chunks (lit "aaa bbb ccc") 5 0); lia.
Defined.

Lemma chunk_document_chunks_are_parts_witness :
  (0 <= 0)%Z /\ (0 <= 5)%Z /\
  chunk_document (lit "aaa bbb ccc") 5 0 = Return [lit "aaa"; lit "bbb"; lit "ccc"] /\
  Forall (fun c => infix c (lit "aaa bbb ccc")) [lit "aaa"; lit "bbb"; lit "ccc"].
Proof.
  split; [lia |]. split; [lia |]. split; [exact chunk_sample_run |].
  apply (chunk_document_chunks_are_parts (lit "aaa bbb ccc") 5 0 _
           ltac:(lia) ltac:(lia) chunk_sample_run).
Defined.

Lemma chunk_document_size_bound_witness :
  (0 <= 0)%Z /\ (0 <= 5)%Z /\
  chunk_document (lit "aaa bbb ccc") 5 0 = Return [lit "aaa"; lit "bbb"; lit "ccc"] /\
  Forall (fun c => (len c <= 5)%Z \/
                   Forall (fun x => ~ In x separators_of_chunk_document) (drop 1 c))
         [lit "aaa"; lit "bbb"; lit "ccc"].
Proof.
  split; [lia |]. split; [lia |]. split; [exact chunk_sample_run |].
  apply (chunk_document_size_bound (lit "aaa bbb ccc") 5 0 _
           ltac:(lia) ltac:(lia) chunk_sample_run).
Defined.

Lemma chunk_document_unsplittable_witness :
  (2 <= 5)%Z /\ (5 <= len (lit "aaaaaaaa"))%Z /\ lit "aaaaaaaa" <> [] /\
  Forall (fun x => ~ In x separators_of_chunk_document) (lit "aaaaaaaa") /\
  chunk_document (lit "aaaaaaaa") 5 2 = Return [lit "aaaaaaaa"].
Proof.
  assert (H : Forall (fun x => ~ In x separators_of_chunk_document) (lit "aaaaaaaa")).
  { repeat constructor; intros [H | [H | [H | [H | [H | []]]]]]; discriminate H. }
  split; [lia |]. split; [vm_compute; discriminate |]. split; [discriminate |].
  split; [exact H |].
  apply (chunk_document_unsplittable (lit "aaaaaaaa") 5 2);
    first [lia | exact H | discriminate | (vm_compute; discriminate)].
Defined.

Lemma get_conversation_summary_one_request_witness :
  let run := Conversation.get_conversation_summary sample_chat
               (lit "hello") (lit "and then?") in
  fst (run []) = Conversation.Ok (lit "What is RAG?") /\
  length (snd (run [])) = 1 /\
  fst (run (snd (run []))) = Conversation.Err (Conversation.Builtin (LibraryError 429)) /\
  length (snd (run (snd (run [])))) = 2.
Proof.
  intros run.
  pose proof (get_conversation_summary_one_request sample_chat
                (lit "hello") (lit "and then?") []) as H1.
  cbv zeta in H1. destruct H1 as (Hsent1 & _ & Hfirst & _).
  fold (run []) in Hsent1, Hfirst.
  pose proof (get_conversation_summary_one_request sample_chat
                (lit "hello") (lit "and then?") (snd (run []))) as H2.
  cbv zeta in H2. destruct H2 as (Hsent2 & Hraise & _).
  fold (run (snd (run []))) in Hsent2, Hraise.
  split; [eapply Hfirst; reflexivity |].
  split; [rewrite Hsent1; reflexivity |].
  split; [apply Hraise; rewrite Hsent1; reflexivity |].
  rewrite Hsent2, Hsent1. reflexivity.
Defined.
